(** * The DRM gralloc module (gralloc.cpp): a shallow embedding

    The allocator facade of gralloc.cpp sits between the Android HAL and
    the DRM driver back-end.  Everything it calls in gralloc_drm.cpp and
    below (device creation, buffer objects, handle validation, locking,
    plane resolution) is an interface here: the class [DriverAdapter].
    The file-level state of gralloc.cpp, that is [dmod->drm] and the
    global [all_records] map, is explicit in the record [world], which
    the operations thread through a small state monad.

    Pointers are addresses in [Z], [NULL] being 0; [int] values are
    integers in [Z], and the two places where the source computes on
    [uint32_t] or converts to [size_t] have their wrap-around written out.
    The module mutex only brackets [drm_init]; in this sequential model
    taking and releasing it has no effect. *)

From Stdlib Require Import ZArith String Ascii HexString.
From stdpp Require Import gmap list sorting pretty.

Local Open Scope Z_scope.

(** ** Integers and pointers of the C++ source *)

Definition NULL : Z := 0.

(** errno.h *)
Definition EINVAL : Z := 22.
Definition ENOMEM : Z := 12.

(** hardware.h: the tag 'H' 'W' 'D' 'T' of a device. *)
Definition HARDWARE_DEVICE_TAG : Z := 1213678676.

(** Value of a [uint32_t] expression. *)
Definition u32 (z : Z) : Z := z mod 2 ^ 32.

(** Conversion of an unsigned 32-bit value to [int] (two's complement). *)
Definition to_int (z : Z) : Z :=
  let r := z mod 2 ^ 32 in if r <? 2 ^ 31 then r else r - 2 ^ 32.

(** [a - b] on [uint32_t] operands. *)
Definition u32_sub (a b : Z) : Z := u32 (a - b).

(** ** What the platform headers fix *)

(** The pixel-format tags, the [perform] op codes and the device name come
    from headers outside gralloc.cpp; so does the width of a pointer (and
    of [size_t]) and the text that [printf] produces for [%p]. *)
Class Platform := {
  HAL_PIXEL_FORMAT_IMPLEMENTATION_DEFINED : Z;
  HAL_PIXEL_FORMAT_RGBA_8888 : Z;
  HAL_PIXEL_FORMAT_YV12 : Z;
  HAL_PIXEL_FORMAT_YCbCr_420_888 : Z;
  GRALLOC_MODULE_PERFORM_GET_DRM_FD : Z;
  GRALLOC_MODULE_PERFORM_DRM_IMPORT : Z;
  GRALLOC_MODULE_PERFORM_CREATE_BUFFER : Z;
  GRALLOC_MODULE_PERFORM_DESTROY_BUFFER : Z;
  GRALLOC_HARDWARE_GPU0 : string;
  ptr_bits : Z;
  printf_p : Z → string
}.

(** [(uint8_t * )p + n]: address arithmetic at the platform's pointer
    width. *)
Definition ptr_add `{Platform} (p n : Z) : Z := (p + n) mod 2 ^ ptr_bits.

(** Conversion of an [int] to [size_t]. *)
Definition to_size_t `{Platform} (z : Z) : Z := z mod 2 ^ ptr_bits.

(** ** The driver adapter *)

(** The fields of [gralloc_drm_handle_t] that gralloc.cpp reads. *)
Record gralloc_drm_handle_t := {
  handle_width : Z;
  handle_height : Z;
  handle_format : Z;
  handle_usage : Z
}.

(** A [uint32_t x[4]] array. *)
Record u32x4 := U32x4 { at0 : Z; at1 : Z; at2 : Z; at3 : Z }.

(** What [gralloc_drm_resolve_format] leaves in the three arrays. *)
Record plane_layout := {
  pitches : u32x4;
  offsets : u32x4;
  handles : u32x4
}.

(** The functions of gralloc_drm.cpp that gralloc.cpp calls.  Those that
    change the back-end take its state and return the new one; queries
    only read it.  A function returning a pointer returns [NULL] for
    failure, as in the source. *)
Class DriverAdapter := {
  drv_state : Type;
  (** [gralloc_drm_create()] *)
  gralloc_drm_create : drv_state → Z * drv_state;
  (** [gralloc_drm_destroy(drm)] *)
  gralloc_drm_destroy : drv_state → Z → drv_state;
  (** [gralloc_drm_get_fd(drm)] *)
  gralloc_drm_get_fd : drv_state → Z → Z;
  (** [gralloc_drm_get_bpp(format)]: the format catalog *)
  gralloc_drm_get_bpp : Z → Z;
  (** [gralloc_drm_bo_create(drm, w, h, format, usage)] *)
  gralloc_drm_bo_create : drv_state → Z → Z → Z → Z → Z → Z * drv_state;
  (** [gralloc_drm_bo_get_handle(bo, &stride)]: the handle, and the byte
      pitch stored through the second argument *)
  gralloc_drm_bo_get_handle : drv_state → Z → Z * Z;
  (** [gralloc_drm_bo_from_handle(handle)] *)
  gralloc_drm_bo_from_handle : drv_state → Z → Z;
  (** [gralloc_drm_bo_decref(bo)] *)
  gralloc_drm_bo_decref : drv_state → Z → drv_state;
  (** [gralloc_drm_handle(handle)] *)
  gralloc_drm_handle : drv_state → Z → Z;
  (** [drm->drv->resolve_buffer], an optional entry of the driver, called
      as [resolve_buffer(drv, fd, gr_handle, hwc_bo)]: the status, and what
      the driver stores into the caller's [HwcBuffer] at [hwc_bo], as
      pairs of an address and the value written there *)
  drv_resolve_buffer :
    option (drv_state → Z → Z → Z → Z * list (Z * Z) * drv_state);
  (** [gralloc_drm_handle_register(handle, drm)] *)
  gralloc_drm_handle_register : drv_state → Z → Z → Z * drv_state;
  (** [gralloc_drm_handle_unregister(handle)] *)
  gralloc_drm_handle_unregister : drv_state → Z → Z * drv_state;
  (** [gralloc_drm_bo_lock(bo, usage, x, y, w, h, &ptr)]: the status and
      the value of [ptr] afterwards, given its value before *)
  gralloc_drm_bo_lock :
    drv_state → Z → Z → Z → Z → Z → Z → Z → Z * Z * drv_state;
  (** [gralloc_drm_bo_unlock(bo)] *)
  gralloc_drm_bo_unlock : drv_state → Z → drv_state;
  (** [gralloc_drm_resolve_format(handle, pitches, offsets, handles)] *)
  gralloc_drm_resolve_format : drv_state → Z → plane_layout;
  (** [bo->handle] *)
  bo_handle : drv_state → Z → Z;
  (** the fields of the [gralloc_drm_handle_t] at an address *)
  handle_fields : drv_state → Z → gralloc_drm_handle_t
}.

(** ** The state of the module *)

(** Calls into the adapter that can change the back-end, in the order the
    module makes them. *)
Inductive call :=
  | CallCreate (drm : Z)
  | CallDestroy (drm : Z)
  | CallBoCreate (drm w h format usage bo : Z)
  | CallBoDecref (bo : Z)
  | CallResolveBuffer (fd gr_handle hwc_bo err : Z)
  | CallHandleRegister (handle drm err : Z)
  | CallHandleUnregister (handle err : Z)
  | CallBoLock (bo usage x y w h err : Z)
  | CallBoUnlock (bo : Z).

(** The order of the keys of [all_records]. *)
Definition key_le (a b : Z * Z) : Prop := a.1 ≤ b.1.

Global Instance key_le_dec : RelDecision key_le.
Proof. intros a b. unfold key_le. apply _. Defined.

Section Gralloc.
Context `{Plat : Platform} `{Drv : DriverAdapter}.

(** [dmod_drm] is [dmod->drm] of the one [HAL_MODULE_INFO_SYM];
    [all_records] is the global [std::map] from a BO to the address of
    the caller's [buffer_handle_t] that received its handle. *)
Record world := World {
  dmod_drm : Z;
  all_records : gmap Z Z;
  adapter : drv_state;
  calls : list call
}.

(** The module as first loaded: [.drm = NULL] and an empty map. *)
Definition initial_world (st : drv_state) : world :=
  {| dmod_drm := NULL; all_records := ∅; adapter := st; calls := [] |}.

Definition M (A : Type) : Type := world → A * world.

Definition ret {A} (a : A) : M A := λ w, (a, w).

Definition bind {A B} (m : M A) (k : A → M B) : M B :=
  λ w, let '(a, w') := m w in k a w'.

Notation "'let*' x := m 'in' k" := (bind m (λ x, k))
  (at level 10, x pattern, m at level 100, k at level 200).

Definition get_drm : M Z := λ w, (dmod_drm w, w).

Definition set_drm (d : Z) : M unit := λ w,
  (tt, {| dmod_drm := d; all_records := all_records w;
          adapter := adapter w; calls := calls w |}).

Definition get_records : M (gmap Z Z) := λ w, (all_records w, w).

Definition set_records (m : gmap Z Z) : M unit := λ w,
  (tt, {| dmod_drm := dmod_drm w; all_records := m;
          adapter := adapter w; calls := calls w |}).

(** A query of the adapter. *)
Definition ask {A} (q : drv_state → A) : M A := λ w, (q (adapter w), w).

(** A call that may change the adapter; it is appended to [calls]. *)
Definition invoke {A} (f : drv_state → A * drv_state) (ev : A → call)
  : M A := λ w,
  let '(a, st) := f (adapter w) in
  (a, {| dmod_drm := dmod_drm w; all_records := all_records w;
         adapter := st; calls := calls w ++ [ev a] |}).

(** [std::map::insert]: an existing key keeps its value. *)
Definition map_insert_new (k v : Z) (m : gmap Z Z) : gmap Z Z :=
  match m !! k with
  | Some _ => m
  | None => <[k := v]> m
  end.

(** ** The operations of gralloc.cpp *)

Definition drm_init : M Z :=
  let* drm := get_drm in
  if drm =? NULL then
    let* d := invoke gralloc_drm_create CallCreate in
    let* _ := set_drm d in
    if d =? NULL then ret (- EINVAL) else ret 0
  else ret 0.

(** [handle] is the address that receives the new handle; the result
    carries the status and, where the source stores them, the values of
    [*handle] and [*stride]. *)
Definition drm_mod_create_buffer (w h format usage handle : Z)
  : M (Z * option (Z * Z)) :=
  let format :=
    if format =? HAL_PIXEL_FORMAT_IMPLEMENTATION_DEFINED
    then HAL_PIXEL_FORMAT_RGBA_8888 else format in
  let bpp := gralloc_drm_get_bpp format in
  if bpp =? 0 then ret (- EINVAL, None) else
  let* drm := get_drm in
  let* bo := invoke (λ st, gralloc_drm_bo_create st drm w h format usage)
                    (CallBoCreate drm w h format usage) in
  if bo =? NULL then ret (- ENOMEM, None) else
  let* (hd, stride) := ask (λ st, gralloc_drm_bo_get_handle st bo) in
  let stride := stride ÷ bpp in
  let* recs := get_records in
  let* _ := set_records (map_insert_new bo handle recs) in
  ret (0, Some (hd, stride)).

Definition drm_mod_destroy_buffer (handle : Z) : M Z :=
  let* bo := ask (λ st, gralloc_drm_bo_from_handle st handle) in
  if bo =? NULL then ret (- EINVAL) else
  let* _ := invoke (λ st, (tt, gralloc_drm_bo_decref st bo))
                   (λ _, CallBoDecref bo) in
  let* recs := get_records in
  match recs !! bo with
  | None => ret (- EINVAL)
  | Some _ =>
      let* _ := set_records (delete bo recs) in
      ret 0
  end.

(** [va_arg]: the [i]-th variadic argument of [perform]. *)
Definition va_arg (args : list Z) (i : nat) : Z := nth i args 0.

(** The result carries the status and the stores through the pointer
    arguments, as pairs of an address and the value written there. *)
Definition drm_mod_perform (op : Z) (args : list Z)
  : M (Z * list (Z * Z)) :=
  let* err := drm_init in
  if negb (err =? 0) then ret (err, []) else
  if op =? GRALLOC_MODULE_PERFORM_GET_DRM_FD then
    let fd := va_arg args 0 in
    let* drm := get_drm in
    let* v := ask (λ st, gralloc_drm_get_fd st drm) in
    ret (0, [(fd, v)])
  else if op =? GRALLOC_MODULE_PERFORM_DRM_IMPORT then
    let fd := va_arg args 0 in
    let handle := va_arg args 1 in
    let hwc_bo := va_arg args 2 in
    let* gr_handle := ask (λ st, gralloc_drm_handle st handle) in
    if gr_handle =? NULL then ret (- EINVAL, []) else
    match drv_resolve_buffer with
    | Some resolve_buffer =>
        let* (err, filled) :=
          invoke (λ st, resolve_buffer st fd gr_handle hwc_bo)
                 (λ r, CallResolveBuffer fd gr_handle hwc_bo r.1) in
        ret (err, filled)
    | None => ret (- EINVAL, [])
    end
  else if op =? GRALLOC_MODULE_PERFORM_CREATE_BUFFER then
    let width := u32 (va_arg args 0) in
    let height := u32 (va_arg args 1) in
    let format := va_arg args 2 in
    let usage := va_arg args 3 in
    let handle := va_arg args 4 in
    let* (err, out) :=
      drm_mod_create_buffer (to_int width) (to_int height) format usage
                            handle in
    match out with
    | Some (hd, _) => ret (err, [(handle, hd)])
    | None => ret (err, [])
    end
  else if op =? GRALLOC_MODULE_PERFORM_DESTROY_BUFFER then
    let handle := va_arg args 0 in
    let* err := drm_mod_destroy_buffer handle in
    ret (err, [])
  else ret (- EINVAL, []).

Definition drm_mod_register_buffer (handle : Z) : M Z :=
  let* err := drm_init in
  if negb (err =? 0) then ret err else
  let* drm := get_drm in
  invoke (λ st, gralloc_drm_handle_register st handle drm)
         (CallHandleRegister handle drm).

Definition drm_mod_unregister_buffer (handle : Z) : M Z :=
  invoke (λ st, gralloc_drm_handle_unregister st handle)
         (CallHandleUnregister handle).

(** [ptr] is the value of [*ptr] on entry; the result carries the status
    and the value of [*ptr] on return. *)
Definition drm_mod_lock (handle usage x y w h ptr : Z) : M (Z * Z) :=
  let* bo := ask (λ st, gralloc_drm_bo_from_handle st handle) in
  if bo =? NULL then ret (- EINVAL, ptr) else
  invoke (λ st, gralloc_drm_bo_lock st bo usage x y w h ptr)
         (λ r, CallBoLock bo usage x y w h r.1).

(** The six fields of [struct android_ycbcr] that the module writes. *)
Record android_ycbcr := {
  y : Z;
  cb : Z;
  cr : Z;
  ystride : Z;
  cstride : Z;
  chroma_step : Z
}.

(** The [case] labels of both [switch] statements of [lock_ycbcr]. *)
Definition planar_format (format : Z) : bool :=
  (format =? HAL_PIXEL_FORMAT_YV12)
  || (format =? HAL_PIXEL_FORMAT_YCbCr_420_888).

(** [ycbcr] is the caller's structure on entry; the result carries the
    status and the structure on return. *)
Definition drm_mod_lock_ycbcr (bhandle usage x_ y_ w h : Z)
    (ycbcr : android_ycbcr) : M (Z * android_ycbcr) :=
  let ptr := NULL in
  let* bo := ask (λ st, gralloc_drm_bo_from_handle st bhandle) in
  if bo =? NULL then ret (- EINVAL, ycbcr) else
  let* handle := ask (λ st, bo_handle st bo) in
  let* format := ask (λ st, handle_format (handle_fields st handle)) in
  if negb (planar_format format) then ret (- EINVAL, ycbcr) else
  let* (err, ptr) :=
    if negb (usage =? 0) then
      invoke (λ st, gralloc_drm_bo_lock st bo usage x_ y_ w h ptr)
             (λ r, CallBoLock bo usage x_ y_ w h r.1)
    else ret (0, ptr) in
  if negb (err =? 0) then ret (err, ycbcr) else
  let* lay := ask (λ st, gralloc_drm_resolve_format st bhandle) in
  let* format := ask (λ st, handle_format (handle_fields st handle)) in
  if planar_format format then
    ret (0, {| y := ptr;
               cb := ptr_add ptr (u32_sub (at1 (offsets lay))
                                          (at2 (offsets lay)));
               cr := ptr_add ptr (u32_sub (at2 (offsets lay))
                                          (at0 (offsets lay)));
               ystride := at0 (pitches lay);
               cstride := at1 (pitches lay);
               chroma_step := 1 |})
  else ret (0, ycbcr).

Definition drm_mod_unlock (handle : Z) : M Z :=
  let* bo := ask (λ st, gralloc_drm_bo_from_handle st handle) in
  if bo =? NULL then ret (- EINVAL) else
  let* _ := invoke (λ st, (tt, gralloc_drm_bo_unlock st bo))
                   (λ _, CallBoUnlock bo) in
  ret 0.

(** [close] reads nothing from the [alloc_device_t] it is given but the
    module it belongs to, which is the one module of the file; the
    object itself is the caller's, and its deletion changes nothing of
    the module. *)
Definition drm_mod_close_gpu0 : M Z :=
  let* drm := get_drm in
  let* _ := invoke (λ st, (tt, gralloc_drm_destroy st drm))
                   (λ _, CallDestroy drm) in
  ret 0.

Definition drm_mod_free_gpu0 (handle : Z) : M Z :=
  drm_mod_destroy_buffer handle.

Definition drm_mod_alloc_gpu0 (w h format usage handle : Z)
  : M (Z * option (Z * Z)) :=
  drm_mod_create_buffer w h format usage handle.

(** *** The census written by [dump] *)

Definition newline : string := String "010"%char EmptyString.

(** [%d] and [%x] applied to an [int]. *)
Definition printf_d (z : Z) : string := pretty z.

Definition printf_x (z : Z) : string :=
  match u32 z with
  | Zpos p => HexString.Raw.of_pos p EmptyString
  | _ => "0"%string
  end.

(** A store of consecutive bytes into the caller's buffer, [wr_at] bytes
    after its start. *)
Record mem_write := { wr_at : Z; wr_bytes : list ascii }.

(** [snprintf(buff + at, size, ...)] where the formatted text is [text]:
    nothing is stored when [size] is 0, otherwise at most [size - 1]
    characters and a terminating NUL; the result is the length of the
    whole text. *)
Definition snprintf (at_ size : Z) (text : string)
  : list mem_write * Z :=
  let chars := list_ascii_of_string text in
  let len := Z.of_nat (length chars) in
  (if size =? 0 then []
   else [ {| wr_at := at_;
             wr_bytes := take (Z.to_nat (Z.min (size - 1) len)) chars
                         ++ ["000"%char] |} ],
   len).

Definition header_text : string :=
  "dump all buffer objects info:" +:+ newline.

Definition entry_text (st : drv_state) (bo handle : Z) : string :=
  let hd := handle_fields st (bo_handle st bo) in
  "bo: " +:+ printf_p bo +:+ ", handle: " +:+ printf_p handle
  +:+ ", width: " +:+ printf_d (handle_width hd)
  +:+ ", height: " +:+ printf_d (handle_height hd)
  +:+ ", format: " +:+ printf_x (handle_format hd)
  +:+ ", usage: " +:+ printf_x (handle_usage hd) +:+ newline.

(** Iteration of a [std::map]: by ascending key. *)
Definition records_in_order (m : gmap Z Z) : list (Z * Z) :=
  merge_sort key_le (map_to_list m).

(** The [for] loop of [dump], from the entry at the head of [entries],
    with [used] characters counted so far. *)
Fixpoint dump_loop (st : drv_state) (buff_len : Z)
    (entries : list (Z * Z)) (used : Z) : list mem_write :=
  match entries with
  | [] => []
  | (bo, handle) :: rest =>
      let '(wr, n) :=
        snprintf used (to_size_t (buff_len - used))
                 (entry_text st bo handle) in
      let used := used + n in
      if buff_len <=? used then wr
      else wr ++ dump_loop st buff_len rest used
  end.

(** The result is the list of stores into [buff], in order. *)
Definition drm_mod_dump_gpu0 (buff_len : Z) : M (list mem_write) :=
  let used := 0 in
  let '(wr, n) := snprintf used (to_size_t (buff_len - used)) header_text in
  let used := used + n in
  let* recs := get_records in
  let* st := ask (λ st, st) in
  ret (wr ++ dump_loop st buff_len (records_in_order recs) used).

(** *** Opening the allocator device *)

(** The [alloc_device_t] that [open] creates: the tag and version of
    [common], and the four methods.  [common.module] is the one module of
    the file. *)
Record alloc_device_t := {
  common_tag : Z;
  common_version : Z;
  common_close : M Z;
  alloc : Z → Z → Z → Z → Z → M (Z * option (Z * Z));
  free : Z → M Z;
  dump : Z → M (list mem_write)
}.

(** The result carries the status and, where the source stores it, the
    device that [*dev] then points to.  The test of the result of [new]
    has no run: [new] does not return null. *)
Definition drm_mod_open_gpu0 : M (Z * option alloc_device_t) :=
  let* err := drm_init in
  if negb (err =? 0) then ret (err, None) else
  let device := {| common_tag := HARDWARE_DEVICE_TAG;
                   common_version := 0;
                   common_close := drm_mod_close_gpu0;
                   alloc := drm_mod_alloc_gpu0;
                   free := drm_mod_free_gpu0;
                   dump := drm_mod_dump_gpu0 |} in
  ret (0, Some device).

Definition drm_mod_open (name : string)
  : M (Z * option alloc_device_t) :=
  if String.eqb name GRALLOC_HARDWARE_GPU0 then drm_mod_open_gpu0
  else ret (- EINVAL, None).

(** A store that stays inside a buffer of [buff_len] bytes. *)
Definition write_within (buff_len : Z) (wr : mem_write) : Prop :=
  0 ≤ wr_at wr ∧ wr_at wr + Z.of_nat (length (wr_bytes wr)) ≤ buff_len.

(** *** Sequences of calls from the host *)

Inductive facade_op :=
  | OpOpen (name : string)
  | OpClose
  | OpAlloc (w h format usage handle : Z)
  | OpFree (handle : Z)
  | OpDump (buff_len : Z)
  | OpRegister (handle : Z)
  | OpUnregister (handle : Z)
  | OpLock (handle usage x_ y_ w h ptr : Z)
  | OpLockYcbcr (handle usage x_ y_ w h : Z) (ycbcr : android_ycbcr)
  | OpUnlock (handle : Z)
  | OpPerform (op : Z) (args : list Z).

(** The state after one call; what the call returns is dropped. *)
Definition step (w : world) (o : facade_op) : world :=
  match o with
  | OpOpen name => (drm_mod_open name w).2
  | OpClose => (drm_mod_close_gpu0 w).2
  | OpAlloc w_ h format usage handle =>
      (drm_mod_alloc_gpu0 w_ h format usage handle w).2
  | OpFree handle => (drm_mod_free_gpu0 handle w).2
  | OpDump buff_len => (drm_mod_dump_gpu0 buff_len w).2
  | OpRegister handle => (drm_mod_register_buffer handle w).2
  | OpUnregister handle => (drm_mod_unregister_buffer handle w).2
  | OpLock handle usage x_ y_ w_ h ptr =>
      (drm_mod_lock handle usage x_ y_ w_ h ptr w).2
  | OpLockYcbcr handle usage x_ y_ w_ h ycbcr =>
      (drm_mod_lock_ycbcr handle usage x_ y_ w_ h ycbcr w).2
  | OpUnlock handle => (drm_mod_unlock handle w).2
  | OpPerform op args => (drm_mod_perform op args w).2
  end.

Definition run (ops : list facade_op) (w : world) : world :=
  foldl step w ops.

End Gralloc.

(** ** A platform and a reference driver

    Concrete instances of the two interfaces, on which the theorems below
    are exercised. *)

(** A 64-bit Android platform: the pixel formats of system/graphics.h,
    op codes from 0x80000002 on as [int], the allocator's device name, and
    [%p] printed in hexadecimal with a 0x prefix. *)
Definition android64 : Platform := {|
  HAL_PIXEL_FORMAT_IMPLEMENTATION_DEFINED := 34;
  HAL_PIXEL_FORMAT_RGBA_8888 := 1;
  HAL_PIXEL_FORMAT_YV12 := 842094169;
  HAL_PIXEL_FORMAT_YCbCr_420_888 := 35;
  GRALLOC_MODULE_PERFORM_GET_DRM_FD := to_int 2147483650;
  GRALLOC_MODULE_PERFORM_DRM_IMPORT := to_int 2147483651;
  GRALLOC_MODULE_PERFORM_CREATE_BUFFER := to_int 2147483652;
  GRALLOC_MODULE_PERFORM_DESTROY_BUFFER := to_int 2147483653;
  GRALLOC_HARDWARE_GPU0 := "gpu0";
  ptr_bits := 64;
  printf_p := HexString.of_Z
|}.

Module RefDriver.

(** Modelled from the spec: the buffer object of the data model (the
    driver back-end, gralloc_drm.cpp, is not part of gralloc.cpp): its
    geometry, byte pitch and reference count, and the address of its
    public handle. *)
Record buffer_object := {
  width : Z;
  height : Z;
  format : Z;
  usage : Z;
  pitch : Z;
  refcount : Z;
  handle : Z
}.

(** Modelled from the spec: the back-end's state: the devices that exist,
    the live buffer objects by address, and the next free address. *)
Record state := {
  devices : gset Z;
  bos : gmap Z buffer_object;
  next : Z
}.

Definition empty : state := {| devices := ∅; bos := ∅; next := 4096 |}.

(** Modelled from the spec: bring-up constructs a device. *)
Definition create (st : state) : Z * state :=
  (next st,
   {| devices := {[next st]} ∪ devices st; bos := bos st;
      next := next st + 16 |}).

Definition destroy (st : state) (drm : Z) : state :=
  {| devices := devices st ∖ {[drm]}; bos := bos st; next := next st |}.

Definition get_fd (st : state) (drm : Z) : Z := 3.

(** Modelled from the spec: a catalog of bytes per pixel; 0 for a format
    it does not know. *)
Definition get_bpp (fmt : Z) : Z :=
  if fmt =? 1 then 4
  else if fmt =? 842094169 then 1
  else if fmt =? 35 then 1
  else 0.

(** Modelled from the spec: the pitch is the row size rounded up to 64
    bytes, so at least [w] times the bytes per pixel; a new BO has
    reference count 1; the handle lies 16 bytes after the BO. *)
Definition bo_create (st : state) (drm w h fmt use : Z) : Z * state :=
  if bool_decide (drm ∈ devices st) && (0 <? w) && (0 <? h) then
    let bo := next st in
    (bo,
     {| devices := devices st;
        bos := <[bo := {| width := w; height := h; format := fmt;
                          usage := use;
                          pitch := (w * get_bpp fmt + 63) / 64 * 64;
                          refcount := 1; handle := bo + 16 |}]> (bos st);
        next := next st + 32 |})
  else (NULL, st).

Definition bo_get_handle (st : state) (bo : Z) : Z * Z :=
  match bos st !! bo with
  | Some b => (handle b, pitch b)
  | None => (NULL, 0)
  end.

(** Modelled from the spec: a handle resolves to its BO while the BO is
    live. *)
Definition bo_from_handle (st : state) (hd : Z) : Z :=
  match bos st !! (hd - 16) with
  | Some _ => hd - 16
  | None => NULL
  end.

(** Modelled from the spec: the count goes down by one and the BO is
    destroyed when it reaches zero. *)
Definition bo_decref (st : state) (bo : Z) : state :=
  match bos st !! bo with
  | Some b =>
      {| devices := devices st;
         bos := if refcount b - 1 =? 0 then delete bo (bos st)
                else <[bo := {| width := width b; height := height b;
                                format := format b; usage := usage b;
                                pitch := pitch b;
                                refcount := refcount b - 1;
                                handle := handle b |}]> (bos st);
         next := next st |}
  | None => st
  end.

(** Modelled from the spec: [register] increments the reference count of
    the BO behind the handle; a handle that does not resolve is
    rejected. *)
Definition handle_register (st : state) (hd drm : Z) : Z * state :=
  match bos st !! (hd - 16) with
  | Some b =>
      (0,
       {| devices := devices st;
          bos := <[hd - 16 := {| width := width b; height := height b;
                                  format := format b; usage := usage b;
                                  pitch := pitch b;
                                  refcount := refcount b + 1;
                                  handle := handle b |}]> (bos st);
          next := next st |})
  | None => (- EINVAL, st)
  end.

(** Modelled from the spec: [unregister] decrements the reference count;
    a handle that does not resolve is rejected. *)
Definition handle_unregister (st : state) (hd : Z) : Z * state :=
  if bo_from_handle st hd =? NULL then (- EINVAL, st)
  else (0, bo_decref st (bo_from_handle st hd)).

(** Modelled from the spec: a live BO maps at a fixed distance from its
    address; the handle is not touched. *)
Definition bo_lock (st : state) (bo use x_ y_ w h ptr : Z)
  : Z * Z * state :=
  match bos st !! bo with
  | Some _ => (0, bo + 2 ^ 20, st)
  | None => (- EINVAL, ptr, st)
  end.

Definition bo_unlock (st : state) (bo : Z) : state := st.

(** Modelled from the spec: plane pitches and byte offsets from the start
    of the buffer; for the 4:2:0 layouts the luma plane comes first, then
    Cr, then Cb, each chroma plane with half the pitch and half the
    rows. *)
Definition resolve_format (st : state) (hd : Z) : plane_layout :=
  match bos st !! (hd - 16) with
  | Some b =>
      let p := pitch b in
      let o2 := u32 (p * height b) in
      let o1 := u32 (o2 + p / 2 * (height b / 2)) in
      {| pitches := U32x4 (u32 p) (u32 (p / 2)) (u32 (p / 2)) 0;
         offsets := U32x4 0 o1 o2 0;
         handles := U32x4 0 0 0 0 |}
  | None =>
      {| pitches := U32x4 0 0 0 0; offsets := U32x4 0 0 0 0;
         handles := U32x4 0 0 0 0 |}
  end.

Definition bo_handle_of (st : state) (bo : Z) : Z :=
  match bos st !! bo with
  | Some b => handle b
  | None => NULL
  end.

Definition fields (st : state) (hd : Z) : gralloc_drm_handle_t :=
  match bos st !! (hd - 16) with
  | Some b =>
      {| handle_width := width b; handle_height := height b;
         handle_format := format b; handle_usage := usage b |}
  | None =>
      {| handle_width := 0; handle_height := 0; handle_format := 0;
         handle_usage := 0 |}
  end.

Definition driver : DriverAdapter := {|
  drv_state := state;
  gralloc_drm_create := create;
  gralloc_drm_destroy := destroy;
  gralloc_drm_get_fd := get_fd;
  gralloc_drm_get_bpp := get_bpp;
  gralloc_drm_bo_create := bo_create;
  gralloc_drm_bo_get_handle := bo_get_handle;
  gralloc_drm_bo_from_handle := bo_from_handle;
  gralloc_drm_bo_decref := bo_decref;
  gralloc_drm_handle := λ st hd, if bo_from_handle st hd =? NULL
                                 then NULL else hd;
  drv_resolve_buffer := None;
  gralloc_drm_handle_register := handle_register;
  gralloc_drm_handle_unregister := handle_unregister;
  gralloc_drm_bo_lock := bo_lock;
  gralloc_drm_bo_unlock := bo_unlock;
  gralloc_drm_resolve_format := resolve_format;
  bo_handle := bo_handle_of;
  handle_fields := fields
|}.

(** The reference count of a BO; 0 once it is destroyed. *)
Definition refcount_of (st : state) (bo : Z) : Z :=
  match bos st !! bo with
  | Some b => refcount b
  | None => 0
  end.

End RefDriver.

(** ** Sample states on the reference driver *)

(** The module as loaded, over an empty back-end. *)
Definition fresh : world :=
  @initial_world RefDriver.driver RefDriver.empty.

(** After [open("gpu0")]: the device is at 4096. *)
Definition opened : world :=
  (@drm_mod_open android64 RefDriver.driver "gpu0" fresh).2.

(** After allocating a 320x240 YV12 buffer with usage 0, the handle to be
    stored at 7000: the BO is at 4112 and its handle at 4128. *)
Definition with_yv12 : world :=
  (@drm_mod_alloc_gpu0 android64 RefDriver.driver
     320 240 842094169 0 7000 opened).2.

(** After allocating a 100x50 RGBA_8888 buffer instead: again the BO is at
    4112 and its handle at 4128. *)
Definition with_rgba : world :=
  (@drm_mod_alloc_gpu0 android64 RefDriver.driver
     100 50 1 3 7000 opened).2.

(** After registering that handle once more: reference count 2. *)
Definition with_shared : world :=
  (@drm_mod_register_buffer RefDriver.driver 4128 with_yv12).2.

(** A caller's [android_ycbcr] before the call. *)
Definition blank_ycbcr : android_ycbcr :=
  {| y := 0; cb := 0; cr := 0; ystride := 0; cstride := 0;
     chroma_step := 0 |}.

(** ** Contracts of the adapter

    Properties of the back-end that the data model promises and that
    gralloc.cpp relies on without checking them. *)

Section Contracts.
Context `{Drv : DriverAdapter}.

(** The catalog gives a number of bytes per pixel, 0 for a format it does
    not know. *)
Definition catalog_nonneg : Prop :=
  ∀ format, 0 ≤ gralloc_drm_get_bpp format.

(** The byte pitch of a BO is at least its width times the bytes per
    pixel, and not negative. *)
Definition pitch_covers_width : Prop :=
  ∀ st drm w h format usage,
    let created := gralloc_drm_bo_create st drm w h format usage in
    created.1 ≠ NULL →
    let pitch := (gralloc_drm_bo_get_handle created.2 created.1).2 in
    0 ≤ pitch ∧ w * gralloc_drm_get_bpp format ≤ pitch.

(** A handle is immutable once [alloc] has returned: locking leaves its
    fields as they are. *)
Definition lock_keeps_handles : Prop :=
  ∀ st bo usage x_ y_ w h ptr hd,
    handle_fields (gralloc_drm_bo_lock st bo usage x_ y_ w h ptr).2 hd
    = handle_fields st hd.

End Contracts.

(** ** Observations of a run *)

(** The devices that [gralloc_drm_create] has returned, in order; a null
    result is a failed construction and is left out. *)
Definition created_devices (cs : list call) : list Z :=
  omap (λ c, match c with
             | CallCreate d => if d =? NULL then None else Some d
             | _ => None
             end) cs.

(** The buffer objects that [gralloc_drm_bo_create] has returned, in
    order, null results left out. *)
Definition created_bos (cs : list call) : list Z :=
  omap (λ c, match c with
             | CallBoCreate _ _ _ _ _ bo =>
                 if bo =? NULL then None else Some bo
             | _ => None
             end) cs.

(** The log of constructed devices agrees with [dmod->drm]: empty while
    the pointer is null, otherwise that one device. *)
Definition device_log_agrees `{DriverAdapter} (s : world) : Prop :=
  created_devices (calls s)
  = if dmod_drm s =? NULL then [] else [dmod_drm s].

(** Every key of the registry is a non-null BO that the module obtained
    from [gralloc_drm_bo_create]. *)
Definition registry_from_alloc `{DriverAdapter} (s : world) : Prop :=
  ∀ bo, bo ∈ dom (all_records s) →
        bo ≠ NULL ∧ bo ∈ created_bos (calls s).

(** The stores that put each of [texts] into the buffer in full, with
    its terminating NUL, the first [used] bytes after the start and each
    further one on the NUL of the one before. *)
Fixpoint lines_from (used : Z) (texts : list (list ascii))
  : list mem_write :=
  match texts with
  | [] => []
  | text :: rest =>
      {| wr_at := used; wr_bytes := text ++ ["000"%char] |}
      :: lines_from (used + Z.of_nat (length text)) rest
  end.

(** The four [case] labels of [perform] are different constants, as a
    [switch] requires. *)
Definition perform_ops_distinct `{Platform} : Prop :=
  NoDup [GRALLOC_MODULE_PERFORM_GET_DRM_FD;
         GRALLOC_MODULE_PERFORM_DRM_IMPORT;
         GRALLOC_MODULE_PERFORM_CREATE_BUFFER;
         GRALLOC_MODULE_PERFORM_DESTROY_BUFFER].

(** The calls from the host that never reach [create_buffer] or
    [destroy_buffer]: all but [alloc], [free] and [perform] with one of
    the two buffer ops. *)
Definition leaves_registry `{Platform} (o : facade_op) : Prop :=
  match o with
  | OpAlloc _ _ _ _ _ | OpFree _ => False
  | OpPerform op _ =>
      op ≠ GRALLOC_MODULE_PERFORM_CREATE_BUFFER
      ∧ op ≠ GRALLOC_MODULE_PERFORM_DESTROY_BUFFER
  | _ => True
  end.

(** The reference driver on a machine without a DRM device:
    [gralloc_drm_create] returns null. *)
Definition no_device_driver : DriverAdapter := {|
  drv_state := RefDriver.state;
  gralloc_drm_create := λ st, (NULL, st);
  gralloc_drm_destroy := RefDriver.destroy;
  gralloc_drm_get_fd := RefDriver.get_fd;
  gralloc_drm_get_bpp := RefDriver.get_bpp;
  gralloc_drm_bo_create := RefDriver.bo_create;
  gralloc_drm_bo_get_handle := RefDriver.bo_get_handle;
  gralloc_drm_bo_from_handle := RefDriver.bo_from_handle;
  gralloc_drm_bo_decref := RefDriver.bo_decref;
  gralloc_drm_handle := λ st hd, if RefDriver.bo_from_handle st hd =? NULL
                                 then NULL else hd;
  drv_resolve_buffer := None;
  gralloc_drm_handle_register := RefDriver.handle_register;
  gralloc_drm_handle_unregister := RefDriver.handle_unregister;
  gralloc_drm_bo_lock := RefDriver.bo_lock;
  gralloc_drm_bo_unlock := RefDriver.bo_unlock;
  gralloc_drm_resolve_format := RefDriver.resolve_format;
  bo_handle := RefDriver.bo_handle_of;
  handle_fields := RefDriver.fields
|}.

(** The module as loaded on that machine. *)
Definition fresh_no_device : world :=
  @initial_world no_device_driver RefDriver.empty.

(** The reference driver with another [resolve_buffer] entry and another
    [gralloc_drm_handle_unregister]. *)
Definition driver_variant
    (resolve_buffer :
       option (RefDriver.state → Z → Z → Z
               → Z * list (Z * Z) * RefDriver.state))
    (unregister : RefDriver.state → Z → Z * RefDriver.state)
  : DriverAdapter := {|
  drv_state := RefDriver.state;
  gralloc_drm_create := RefDriver.create;
  gralloc_drm_destroy := RefDriver.destroy;
  gralloc_drm_get_fd := RefDriver.get_fd;
  gralloc_drm_get_bpp := RefDriver.get_bpp;
  gralloc_drm_bo_create := RefDriver.bo_create;
  gralloc_drm_bo_get_handle := RefDriver.bo_get_handle;
  gralloc_drm_bo_from_handle := RefDriver.bo_from_handle;
  gralloc_drm_bo_decref := RefDriver.bo_decref;
  gralloc_drm_handle := λ st hd, if RefDriver.bo_from_handle st hd =? NULL
                                 then NULL else hd;
  drv_resolve_buffer := resolve_buffer;
  gralloc_drm_handle_register := RefDriver.handle_register;
  gralloc_drm_handle_unregister := unregister;
  gralloc_drm_bo_lock := RefDriver.bo_lock;
  gralloc_drm_bo_unlock := RefDriver.bo_unlock;
  gralloc_drm_resolve_format := RefDriver.resolve_format;
  bo_handle := RefDriver.bo_handle_of;
  handle_fields := RefDriver.fields
|}.

(** Modelled from the spec: [resolve_buffer] resolves a handle and a
    descriptor into a description of the buffer for the caller: here the
    width and the height of the BO, stored in the first two words of the
    caller's [HwcBuffer]. *)
Definition resolve_hwc_buffer (st : RefDriver.state)
    (fd gr_handle hwc_bo : Z) : Z * list (Z * Z) * RefDriver.state :=
  match RefDriver.bos st !! (gr_handle - 16) with
  | Some b =>
      (0, [(hwc_bo, RefDriver.width b); (hwc_bo + 4, RefDriver.height b)],
       st)
  | None => (- EINVAL, [], st)
  end.

(** The reference driver with that [resolve_buffer]. *)
Definition resolving_driver : DriverAdapter :=
  driver_variant (Some resolve_hwc_buffer) RefDriver.handle_unregister.

(** The opened module with the 320x240 YV12 buffer, on that driver. *)
Definition resolving_yv12 : world :=
  (@drm_mod_alloc_gpu0 android64 resolving_driver
     320 240 842094169 0 7000
     (@drm_mod_open android64 resolving_driver "gpu0"
        (@initial_world resolving_driver RefDriver.empty)).2).2.



(** * Properties *)

(** Unfolds the monad so that a run of an operation is a term over the
    initial state. *)
Ltac run_monad :=
  unfold bind, ret, ask, invoke, get_drm, set_drm, get_records,
    set_records in *;
  simpl in *.

Section Allocation.
Context `{Plat : Platform} `{Drv : DriverAdapter}.

Lemma map_insert_new_dom (k v : Z) (m : gmap Z Z) :
  k ∈ dom (map_insert_new k v m).
Proof.
  unfold map_insert_new. destruct (m !! k) eqn:E.
  - apply elem_of_dom; eauto.
  - rewrite dom_insert_L. set_solver.
Qed.

Lemma map_insert_new_fresh (k v : Z) (m : gmap Z Z) :
  m !! k = None → map_insert_new k v m = <[k := v]> m.
Proof. intros E. unfold map_insert_new. by rewrite E. Qed.

(** C4: [create_buffer] treats the implementation-defined format exactly
    as RGBA_8888; for any other format, a zero entry of the catalog makes
    it fail with -EINVAL (BadFormat) before the adapter is called, a null
    BO from the adapter makes it fail with -ENOMEM (OutOfMemory) with the
    registry as it was, and otherwise it succeeds, returns the BO's
    handle, and has inserted the pair of the BO and the handle slot into
    the registry with [std::map::insert]. *)
Theorem create_buffer_outcome (w h format usage handle : Z) (s : world) :
  drm_mod_create_buffer w h HAL_PIXEL_FORMAT_IMPLEMENTATION_DEFINED usage
                        handle s
  = drm_mod_create_buffer w h HAL_PIXEL_FORMAT_RGBA_8888 usage handle s
  ∧ (format ≠ HAL_PIXEL_FORMAT_IMPLEMENTATION_DEFINED →
     let bpp := gralloc_drm_get_bpp format in
     let created :=
       gralloc_drm_bo_create (adapter s) (dmod_drm s) w h format usage in
     let bo := created.1 in
     let r := drm_mod_create_buffer w h format usage handle s in
     (bpp = 0 → r = ((- EINVAL, None), s))
     ∧ (bpp ≠ 0 → bo = NULL →
        r.1 = (- ENOMEM, None) ∧ all_records r.2 = all_records s)
     ∧ (bpp ≠ 0 → bo ≠ NULL →
        r.1.1 = 0
        ∧ (∃ stride,
             r.1.2 = Some ((gralloc_drm_bo_get_handle created.2 bo).1,
                           stride))
        ∧ all_records r.2 = map_insert_new bo handle (all_records s)
        ∧ bo ∈ dom (all_records r.2)
        ∧ (all_records s !! bo = None →
           all_records r.2 = <[bo := handle]> (all_records s)
           ∧ size (all_records r.2) = S (size (all_records s))))).
Proof.
  split.
  - unfold drm_mod_create_buffer. rewrite Z.eqb_refl.
    destruct (HAL_PIXEL_FORMAT_RGBA_8888
              =? HAL_PIXEL_FORMAT_IMPLEMENTATION_DEFINED) eqn:E; [|done].
    apply Z.eqb_eq in E. by rewrite E.
  - intros Hfmt bpp created bo r.
    assert (Hne : (format =? HAL_PIXEL_FORMAT_IMPLEMENTATION_DEFINED)
                  = false) by by apply Z.eqb_neq.
    subst r bo. unfold drm_mod_create_buffer. rewrite Hne. fold bpp.
    destruct (bpp =? 0) eqn:Eb.
    { apply Z.eqb_eq in Eb. repeat split; intros; done || lia. }
    apply Z.eqb_neq in Eb. run_monad. fold created.
    destruct created as [b st'] eqn:Hc. simpl.
    destruct (b =? NULL) eqn:En.
    { apply Z.eqb_eq in En. repeat split; intros; done || lia. }
    apply Z.eqb_neq in En.
    destruct (gralloc_drm_bo_get_handle st' b) as [hd p] eqn:Hh. simpl.
    rewrite ?Hh. simpl.
    split; [intros; lia|]. split; [intros; lia|]. intros _ _.
    split; [done|]. split; [eauto|]. split; [done|].
    split; [apply map_insert_new_dom|]. intros Hfresh.
    rewrite map_insert_new_fresh by done.
    split; [done|]. by apply map_size_insert_None.
Qed.

End Allocation.

Section Stride.
Context `{Plat : Platform} `{Drv : DriverAdapter}.

(** Truncating division of a non-negative pitch by a positive number of
    bytes per pixel. *)
Lemma stride_bounds (pitch bpp w : Z) :
  0 ≤ pitch → 0 < bpp → w * bpp ≤ pitch →
  pitch ÷ bpp * bpp ≤ pitch ∧ w ≤ pitch ÷ bpp.
Proof.
  intros Hp Hb Hw. rewrite Z.quot_div_nonneg by lia. split.
  - rewrite Z.mul_comm. apply Z.mul_div_le. lia.
  - apply Z.div_le_lower_bound; lia.
Qed.

(** C5: a successful [alloc] returns the byte pitch that the new BO
    reports, divided (as [int]s) by the bytes per pixel of the format the
    buffer is created with, which is the requested format or, for the
    implementation-defined one, RGBA_8888.  With a catalog of
    non-negative entries and a driver whose pitch covers the width, the
    stride in pixels times the bytes per pixel does not exceed the byte
    pitch, and the stride is at least the requested width. *)
Theorem alloc_stride_in_pixels
    (w h format usage handle hd stride : Z) (s s' : world) :
  catalog_nonneg → pitch_covers_width →
  drm_mod_alloc_gpu0 w h format usage handle s
  = ((0, Some (hd, stride)), s') →
  let fmt := if format =? HAL_PIXEL_FORMAT_IMPLEMENTATION_DEFINED
             then HAL_PIXEL_FORMAT_RGBA_8888 else format in
  let bpp := gralloc_drm_get_bpp fmt in
  ∃ bo,
    calls s' = calls s ++ [CallBoCreate (dmod_drm s) w h fmt usage bo]
    ∧ bo ≠ NULL
    ∧ let reported := gralloc_drm_bo_get_handle (adapter s') bo in
      hd = reported.1
      ∧ stride = reported.2 ÷ bpp
      ∧ stride * bpp ≤ reported.2
      ∧ w ≤ stride.
Proof.
  intros Hcat Hpitch Hrun fmt bpp.
  unfold drm_mod_alloc_gpu0, drm_mod_create_buffer in Hrun.
  fold fmt in Hrun. fold bpp in Hrun.
  destruct (bpp =? 0) eqn:Eb; [by inversion Hrun|].
  apply Z.eqb_neq in Eb. run_monad.
  specialize (Hpitch (adapter s) (dmod_drm s) w h fmt usage).
  destruct (gralloc_drm_bo_create (adapter s) (dmod_drm s) w h fmt usage)
    as [bo st'] eqn:Hc.
  simpl in Hpitch.
  destruct (bo =? NULL) eqn:En; [by inversion Hrun|].
  apply Z.eqb_neq in En. specialize (Hpitch En). cbn in Hrun.
  destruct (gralloc_drm_bo_get_handle st' bo) as [hd' pitch] eqn:Hh.
  simpl in Hpitch. inversion Hrun; subst; clear Hrun.
  exists bo. simpl. rewrite Hh. simpl.
  pose proof (Hcat fmt) as Hnn. fold bpp in Hnn, Hpitch.
  destruct (stride_bounds pitch bpp w) as [H1 H2]; [lia..|].
  done.
Qed.

End Stride.

Section Planar.
Context `{Plat : Platform} `{Drv : DriverAdapter}.

Lemma planar_format_true (format : Z) :
  planar_format format = true
  ↔ format = HAL_PIXEL_FORMAT_YV12
    ∨ format = HAL_PIXEL_FORMAT_YCbCr_420_888.
Proof.
  unfold planar_format. rewrite orb_true_iff, !Z.eqb_eq. done.
Qed.

Lemma planar_format_false (format : Z) :
  planar_format format = false
  ↔ format ≠ HAL_PIXEL_FORMAT_YV12
    ∧ format ≠ HAL_PIXEL_FORMAT_YCbCr_420_888.
Proof.
  unfold planar_format. rewrite orb_false_iff, !Z.eqb_neq. done.
Qed.

(** A null base plus a [uint32_t] offset is that offset, on a platform
    whose pointers have at least 32 bits. *)
Lemma ptr_add_null (n : Z) :
  32 ≤ ptr_bits → ptr_add NULL (u32 n) = u32 n.
Proof.
  intros Hb. unfold ptr_add, NULL, u32. rewrite Z.add_0_l.
  apply Z.mod_small.
  pose proof (Z.mod_pos_bound n (2 ^ 32) ltac:(lia)).
  pose proof (Z.pow_le_mono_r 2 32 ptr_bits ltac:(lia) Hb). lia.
Qed.

Lemma u32_sub_zero (a b : Z) : u32_sub a b = 0 ↔ u32 a = u32 b.
Proof.
  unfold u32_sub, u32. split; intros E.
  - rewrite <- (Z.sub_add b a), Z.add_mod, E by lia.
    rewrite Z.add_0_l, Z.mod_mod by lia. done.
  - rewrite Zminus_mod, E, Z.sub_diag. done.
Qed.

(** Without wrap-around the offset difference and the address sum are
    the plain ones. *)
Lemma ptr_add_plain (base a b : Z) :
  0 ≤ b ≤ a → a < 2 ^ 32 → 0 ≤ base → base + (a - b) < 2 ^ ptr_bits →
  ptr_add base (u32_sub a b) = base + (a - b).
Proof.
  intros Hab Ha Hbase Hfit. unfold ptr_add, u32_sub, u32.
  rewrite (Z.mod_small (a - b)) by lia. apply Z.mod_small. lia.
Qed.

(** The run of [lock_ycbcr] with usage 0 when the handle resolves and
    the format is accepted. *)
Lemma lock_ycbcr_unlocked
    (bhandle x_ y_ w h : Z) (ycbcr : android_ycbcr) (s : world) :
  let st := adapter s in
  let bo := gralloc_drm_bo_from_handle st bhandle in
  let lay := gralloc_drm_resolve_format st bhandle in
  bo ≠ NULL →
  planar_format (handle_format (handle_fields st (bo_handle st bo)))
  = true →
  drm_mod_lock_ycbcr bhandle 0 x_ y_ w h ycbcr s
  = ((0, {| y := NULL;
            cb := ptr_add NULL
                    (u32_sub (at1 (offsets lay)) (at2 (offsets lay)));
            cr := ptr_add NULL
                    (u32_sub (at2 (offsets lay)) (at0 (offsets lay)));
            ystride := at0 (pitches lay);
            cstride := at1 (pitches lay);
            chroma_step := 1 |}), s).
Proof.
  intros st bo lay Hbo Hfmt. apply Z.eqb_neq in Hbo.
  subst lay bo st. unfold drm_mod_lock_ycbcr. run_monad.
  rewrite Hbo, Hfmt. cbn. by rewrite Hfmt.
Qed.

(** C2 (as amended): [lock_ycbcr] with usage 0 on a buffer of an accepted
    format calls nothing that could map the buffer and leaves the whole
    state as it was; it succeeds, the Y pointer is null, the strides are
    the first two pitches of the driver, and the Cb and Cr pointers are
    the null base plus the [uint32_t] differences of the plane offsets,
    hence null exactly when the two offsets involved agree. *)
Theorem lock_ycbcr_without_mapping
    (bhandle x_ y_ w h : Z) (ycbcr : android_ycbcr) (s : world) :
  let st := adapter s in
  let bo := gralloc_drm_bo_from_handle st bhandle in
  let format := handle_format (handle_fields st (bo_handle st bo)) in
  let lay := gralloc_drm_resolve_format st bhandle in
  bo ≠ NULL →
  format = HAL_PIXEL_FORMAT_YV12
  ∨ format = HAL_PIXEL_FORMAT_YCbCr_420_888 →
  let r := drm_mod_lock_ycbcr bhandle 0 x_ y_ w h ycbcr s in
  r.2 = s
  ∧ r.1.1 = 0
  ∧ y r.1.2 = NULL
  ∧ ystride r.1.2 = at0 (pitches lay)
  ∧ cstride r.1.2 = at1 (pitches lay)
  ∧ cb r.1.2 = ptr_add NULL (u32_sub (at1 (offsets lay))
                                     (at2 (offsets lay)))
  ∧ cr r.1.2 = ptr_add NULL (u32_sub (at2 (offsets lay))
                                     (at0 (offsets lay)))
  ∧ (32 ≤ ptr_bits →
     (cb r.1.2 = NULL ↔ u32 (at1 (offsets lay)) = u32 (at2 (offsets lay)))
     ∧ (cr r.1.2 = NULL
        ↔ u32 (at2 (offsets lay)) = u32 (at0 (offsets lay)))).
Proof.
  intros st bo format lay Hbo Hfmt r.
  apply planar_format_true in Hfmt.
  subst r st bo format lay. rewrite lock_ycbcr_unlocked by done. cbn.
  set (lay := gralloc_drm_resolve_format (adapter s) bhandle).
  repeat (split; [done|]). intros Hbits.
  rewrite !(ptr_add_null (_ - _) Hbits : ptr_add NULL (u32_sub _ _) = _).
  change (u32 (?a - ?b)) with (u32_sub a b).
  unfold NULL. by rewrite !u32_sub_zero.
Qed.

(** The run of [lock_ycbcr] when the handle resolves, the format is
    accepted and the driver's lock is taken. *)
Lemma lock_ycbcr_locked
    (bhandle usage x_ y_ w h : Z) (ycbcr : android_ycbcr) (s : world) :
  let st := adapter s in
  let bo := gralloc_drm_bo_from_handle st bhandle in
  let hd := bo_handle st bo in
  let locked := gralloc_drm_bo_lock st bo usage x_ y_ w h NULL in
  let s' := {| dmod_drm := dmod_drm s; all_records := all_records s;
               adapter := locked.2;
               calls := calls s
                        ++ [CallBoLock bo usage x_ y_ w h locked.1.1] |} in
  let lay := gralloc_drm_resolve_format locked.2 bhandle in
  bo ≠ NULL →
  planar_format (handle_format (handle_fields st hd)) = true →
  usage ≠ 0 →
  drm_mod_lock_ycbcr bhandle usage x_ y_ w h ycbcr s
  = if negb (locked.1.1 =? 0) then ((locked.1.1, ycbcr), s')
    else if planar_format (handle_format (handle_fields locked.2 hd))
    then ((0, {| y := locked.1.2;
                 cb := ptr_add locked.1.2
                         (u32_sub (at1 (offsets lay)) (at2 (offsets lay)));
                 cr := ptr_add locked.1.2
                         (u32_sub (at2 (offsets lay)) (at0 (offsets lay)));
                 ystride := at0 (pitches lay);
                 cstride := at1 (pitches lay);
                 chroma_step := 1 |}), s')
    else ((0, ycbcr), s').
Proof.
  intros st bo hd locked s' lay Hbo Hfmt Hus.
  apply Z.eqb_neq in Hbo, Hus.
  subst s' lay locked hd bo st.
  unfold drm_mod_lock_ycbcr. run_monad.
  rewrite Hbo, Hfmt. cbn. rewrite Hus. cbn.
  destruct (gralloc_drm_bo_lock _ _ _ _ _ _ _ _) as [[err ptr] st'].
  cbn. destruct (err =? 0); cbn; [|done].
  by destruct (planar_format (handle_format (handle_fields st' _))).
Qed.

(** C6: when [lock_ycbcr] takes the driver's lock and obtains the base
    pointer [base], it succeeds with the Y pointer at [base], the Cb
    pointer at [base] plus the [uint32_t] difference
    [offsets[1] - offsets[2]] and the Cr pointer at [base] plus
    [offsets[2] - offsets[0]]; where neither the subtraction nor the
    address wraps, these are [base + (offsets[1] - offsets[2])] and
    [base + (offsets[2] - offsets[0])] as integers. *)
Theorem lock_ycbcr_chroma_pointers
    (bhandle usage x_ y_ w h base : Z) (st' : drv_state)
    (ycbcr : android_ycbcr) (s : world) :
  let st := adapter s in
  let bo := gralloc_drm_bo_from_handle st bhandle in
  let format := handle_format (handle_fields st (bo_handle st bo)) in
  lock_keeps_handles →
  bo ≠ NULL →
  format = HAL_PIXEL_FORMAT_YV12
  ∨ format = HAL_PIXEL_FORMAT_YCbCr_420_888 →
  usage ≠ 0 →
  gralloc_drm_bo_lock st bo usage x_ y_ w h NULL = (0, base, st') →
  let o := offsets (gralloc_drm_resolve_format st' bhandle) in
  let r := drm_mod_lock_ycbcr bhandle usage x_ y_ w h ycbcr s in
  r.1.1 = 0
  ∧ y r.1.2 = base
  ∧ cb r.1.2 = ptr_add base (u32_sub (at1 o) (at2 o))
  ∧ cr r.1.2 = ptr_add base (u32_sub (at2 o) (at0 o))
  ∧ (0 ≤ at2 o ≤ at1 o → at1 o < 2 ^ 32 → 0 ≤ base →
     base + (at1 o - at2 o) < 2 ^ ptr_bits →
     cb r.1.2 = base + (at1 o - at2 o))
  ∧ (0 ≤ at0 o ≤ at2 o → at2 o < 2 ^ 32 → 0 ≤ base →
     base + (at2 o - at0 o) < 2 ^ ptr_bits →
     cr r.1.2 = base + (at2 o - at0 o)).
Proof.
  intros st bo format Hkeep Hbo Hfmt Hus Hlock o r.
  apply planar_format_true in Hfmt.
  specialize (Hkeep st bo usage x_ y_ w h NULL (bo_handle st bo)).
  subst r o format bo st.
  rewrite lock_ycbcr_locked by done.
  rewrite Hlock in Hkeep |- *. cbn in *.
  rewrite Hkeep, Hfmt. cbn.
  repeat (split; [done|]).
  split; intros; by apply ptr_add_plain.
Qed.

(** C7: on a handle that resolves, [lock_ycbcr] fails with -EINVAL
    (BadFormat), touching nothing, for every format other than YV12 and
    YCbCr_420_888; for these two it returns 0 when usage is 0 and the
    status of the driver's lock otherwise, and whenever that is 0 the
    descriptor carries [pitches[0]] as Y stride, [pitches[1]] as chroma
    stride and 1 as chroma step. *)
Theorem lock_ycbcr_accepted_formats
    (bhandle usage x_ y_ w h : Z) (ycbcr : android_ycbcr) (s : world) :
  let st := adapter s in
  let bo := gralloc_drm_bo_from_handle st bhandle in
  let format := handle_format (handle_fields st (bo_handle st bo)) in
  let r := drm_mod_lock_ycbcr bhandle usage x_ y_ w h ycbcr s in
  lock_keeps_handles →
  bo ≠ NULL →
  (format ≠ HAL_PIXEL_FORMAT_YV12 →
   format ≠ HAL_PIXEL_FORMAT_YCbCr_420_888 →
   r = ((- EINVAL, ycbcr), s))
  ∧ (format = HAL_PIXEL_FORMAT_YV12
     ∨ format = HAL_PIXEL_FORMAT_YCbCr_420_888 →
     let err :=
       if usage =? 0 then 0
       else (gralloc_drm_bo_lock st bo usage x_ y_ w h NULL).1.1 in
     let p := pitches (gralloc_drm_resolve_format (adapter r.2) bhandle) in
     r.1.1 = err
     ∧ (err = 0 →
        ystride r.1.2 = at0 p ∧ cstride r.1.2 = at1 p
        ∧ chroma_step r.1.2 = 1)
     ∧ (err ≠ 0 → r.1.2 = ycbcr)).
Proof.
  intros st bo format r Hkeep Hbo. split.
  - intros H1 H2.
    assert (Hf : planar_format format = false)
      by by apply planar_format_false.
    apply Z.eqb_neq in Hbo. subst r format bo st.
    unfold drm_mod_lock_ycbcr. run_monad. by rewrite Hbo, Hf.
  - intros Hfmt err p. destruct (usage =? 0) eqn:Eu.
    + apply Z.eqb_eq in Eu. subst usage.
      apply planar_format_true in Hfmt.
      subst err p r format bo st. rewrite lock_ycbcr_unlocked by done.
      cbn. repeat split; done.
    + apply Z.eqb_neq in Eu. apply planar_format_true in Hfmt.
      specialize (Hkeep st bo usage x_ y_ w h NULL (bo_handle st bo)).
      subst err p r format bo st. rewrite lock_ycbcr_locked by done.
      destruct (gralloc_drm_bo_lock _ _ _ _ _ _ _ _) as [[e ptr] st'].
      cbn in *. rewrite Hkeep, Hfmt.
      destruct (e =? 0) eqn:Ee; cbn.
      * apply Z.eqb_eq in Ee. subst e. repeat split; done.
      * apply Z.eqb_neq in Ee. repeat split; done.
Qed.

End Planar.

Section Device.
Context `{Plat : Platform} `{Drv : DriverAdapter}.

(** Splits a run into the cases of its conditionals and of the adapter's
    answers. *)
Ltac run_cases :=
  run_monad; repeat (case_match; simpl in *; simplify_eq); try done.

(** Bring-up on a live device does nothing. *)
Lemma drm_init_live (s : world) :
  dmod_drm s ≠ NULL → drm_init s = (0, s).
Proof.
  intros Hlive. apply Z.eqb_neq in Hlive.
  unfold drm_init. run_monad. by rewrite Hlive.
Qed.

(** Bring-up returns 0 or -EINVAL, and 0 only with a device in place. *)
Lemma drm_init_status (s : world) :
  ((drm_init s).1 = 0 ∧ dmod_drm (drm_init s).2 ≠ NULL)
  ∨ (drm_init s).1 = - EINVAL.
Proof.
  unfold drm_init. run_monad.
  destruct (dmod_drm s =? NULL) eqn:E; simpl.
  - destruct (gralloc_drm_create (adapter s)) as [d st]. simpl.
    destruct (d =? NULL) eqn:Ed; simpl; [by right|].
    left. split; [done|]. by apply Z.eqb_neq.
  - left. split; [done|]. by apply Z.eqb_neq.
Qed.

Lemma drm_init_records (s : world) :
  all_records (drm_init s).2 = all_records s.
Proof. unfold drm_init. run_cases. Qed.

(** C8 (as amended): for an op code outside the four supported ones,
    [perform] runs the device bring-up and nothing else: it returns
    -EINVAL (BadOp), stores nothing, leaves the registry unchanged and
    leaves the state as [drm_init] alone leaves it, which is the state
    before the call whenever the device is already live. *)
Theorem perform_unknown_op (op : Z) (args : list Z) (s : world) :
  op ≠ GRALLOC_MODULE_PERFORM_GET_DRM_FD →
  op ≠ GRALLOC_MODULE_PERFORM_DRM_IMPORT →
  op ≠ GRALLOC_MODULE_PERFORM_CREATE_BUFFER →
  op ≠ GRALLOC_MODULE_PERFORM_DESTROY_BUFFER →
  let r := drm_mod_perform op args s in
  r = ((- EINVAL, []), (drm_init s).2)
  ∧ all_records r.2 = all_records s
  ∧ (dmod_drm s ≠ NULL → r.2 = s).
Proof.
  intros H1 H2 H3 H4 r.
  assert (Hr : r = ((- EINVAL, []), (drm_init s).2)).
  { subst r. unfold drm_mod_perform, bind.
    apply Z.eqb_neq in H1, H2, H3, H4.
    destruct (drm_init_status s) as [[Hs _]|Hs];
      destruct (drm_init s) as [err s1]; simpl in *; subst err; simpl.
    - by rewrite H1, H2, H3, H4.
    - done. }
  rewrite Hr. simpl. split; [done|]. split.
  - apply drm_init_records.
  - intros Hlive. by rewrite drm_init_live.
Qed.

(** No operation changes [dmod->drm] once it is set. *)
Lemma step_keeps_live_device (s : world) (o : facade_op) :
  dmod_drm s ≠ NULL → dmod_drm (step s o) = dmod_drm s.
Proof.
  intros Hlive. pose proof (drm_init_live s Hlive) as Hinit.
  destruct o; simpl.
  - unfold drm_mod_open, drm_mod_open_gpu0, bind.
    destruct (String.eqb _ _); [|done]. by rewrite Hinit.
  - unfold drm_mod_close_gpu0. run_cases.
  - unfold drm_mod_alloc_gpu0, drm_mod_create_buffer. run_cases.
  - unfold drm_mod_free_gpu0, drm_mod_destroy_buffer. run_cases.
  - unfold drm_mod_dump_gpu0. run_cases.
  - unfold drm_mod_register_buffer, bind. rewrite Hinit. run_cases.
  - unfold drm_mod_unregister_buffer. run_cases.
  - unfold drm_mod_lock. run_cases.
  - unfold drm_mod_lock_ycbcr. run_cases.
  - unfold drm_mod_unlock. run_cases.
  - unfold drm_mod_perform, bind. rewrite Hinit. simpl.
    unfold drm_mod_create_buffer, drm_mod_destroy_buffer. run_cases.
Qed.

Lemma run_keeps_live_device (ops : list facade_op) (s : world) :
  dmod_drm s ≠ NULL → dmod_drm (run ops s) = dmod_drm s.
Proof.
  revert s. induction ops as [|o ops IH]; intros s Hlive; [done|].
  unfold run in *. simpl. rewrite IH.
  - by apply step_keeps_live_device.
  - by rewrite step_keeps_live_device.
Qed.

(** A successful [open] leaves a device pointer in the module. *)
Lemma open_sets_device (name : string) (s : world) :
  (drm_mod_open name s).1.1 = 0 →
  dmod_drm (drm_mod_open name s).2 ≠ NULL.
Proof.
  unfold drm_mod_open, drm_mod_open_gpu0, bind.
  destruct (String.eqb _ _); [|done].
  destruct (drm_init_status s) as [[Hs Hd]|Hs];
    destruct (drm_init s) as [err s1]; simpl in *; subst err; simpl; done.
Qed.

(** C9: take an allocator device obtained by a successful [open] and
    closed after any calls [before].  Closing returns 0, hands the device
    to [gralloc_drm_destroy] and leaves [dmod->drm] pointing to it; after
    any further calls [after] the pointer is still that one, so bring-up
    returns 0 with the state untouched, without a call to
    [gralloc_drm_create]. *)
Theorem close_keeps_device_pointer
    (name : string) (before after : list facade_op) (s0 : world) :
  (drm_mod_open name s0).1.1 = 0 →
  let s := run before (drm_mod_open name s0).2 in
  let closed := drm_mod_close_gpu0 s in
  let s' := run after closed.2 in
  closed.1 = 0
  ∧ adapter closed.2 = gralloc_drm_destroy (adapter s) (dmod_drm s)
  ∧ calls closed.2 = calls s ++ [CallDestroy (dmod_drm s)]
  ∧ dmod_drm closed.2 = dmod_drm s
  ∧ dmod_drm s' = dmod_drm s
  ∧ dmod_drm s' ≠ NULL
  ∧ drm_init s' = (0, s').
Proof.
  intros Hopen s closed s'.
  assert (Hs : dmod_drm s ≠ NULL).
  { subst s. rewrite run_keeps_live_device; by apply open_sets_device. }
  assert (Hc : dmod_drm closed.2 = dmod_drm s) by done.
  assert (Hs' : dmod_drm s' = dmod_drm s).
  { subst s'. rewrite run_keeps_live_device; by rewrite Hc. }
  repeat (split; [done|]).
  split; [by rewrite Hs'|]. apply drm_init_live. by rewrite Hs'.
Qed.


End Device.

Section Destruction.
Context `{Drv : DriverAdapter}.

(** What a second [destroy_buffer] does after a successful first one:
    the first call has removed the BO from the registry, whose size went
    down by one.  If the handle no longer resolves, the second call fails
    with -EINVAL and does nothing.  If it still resolves to the same BO,
    the second call fails with -EINVAL and leaves the registry alone, but
    only after a second [gralloc_drm_bo_decref] on that BO. *)
Lemma destroy_buffer_again (handle : Z) (s : world) :
  let bo := gralloc_drm_bo_from_handle (adapter s) handle in
  let first := drm_mod_destroy_buffer handle s in
  let second := drm_mod_destroy_buffer handle first.2 in
  first.1 = 0 →
  adapter first.2 = gralloc_drm_bo_decref (adapter s) bo
  ∧ all_records first.2 = delete bo (all_records s)
  ∧ S (size (all_records first.2)) = size (all_records s)
  ∧ (gralloc_drm_bo_from_handle (adapter first.2) handle = NULL →
     second = (- EINVAL, first.2))
  ∧ (gralloc_drm_bo_from_handle (adapter first.2) handle = bo →
     second.1 = - EINVAL
     ∧ all_records second.2 = all_records first.2
     ∧ adapter second.2 = gralloc_drm_bo_decref (adapter first.2) bo
     ∧ calls second.2 = calls first.2 ++ [CallBoDecref bo]).
Proof.
  intros bo first second Hok. subst second first.
  unfold drm_mod_destroy_buffer in *. run_monad. fold bo in Hok |- *.
  destruct (bo =? NULL) eqn:En; [done|]. simpl in *.
  destruct (all_records s !! bo) as [v|] eqn:Hin; [|done]. simpl.
  split; [done|]. split; [done|].
  split.
  { rewrite <- (insert_delete_id (all_records s) bo v Hin) at 2.
    by rewrite map_size_insert_None by apply lookup_delete_eq. }
  split.
  - intros ->. done.
  - intros ->. rewrite En. simpl. by rewrite lookup_delete_eq.
Qed.

End Destruction.

Section Dump.
Context `{Plat : Platform} `{Drv : DriverAdapter}.

(** [dump] only reads the module. *)
Lemma dump_frame (buff_len : Z) (s : world) :
  (drm_mod_dump_gpu0 buff_len s).2 = s.
Proof.
  unfold drm_mod_dump_gpu0.
  destruct (snprintf _ _ _) as [wr n]. run_monad. done.
Qed.

(** [snprintf] stays within the size it is given. *)
Lemma snprintf_within (at_ size buff_len : Z) (text : string) :
  0 ≤ at_ → 0 ≤ size → at_ + size ≤ buff_len →
  Forall (write_within buff_len) (snprintf at_ size text).1.
Proof.
  intros Hat Hsize Hfit. unfold snprintf. simpl.
  destruct (size =? 0) eqn:E; [constructor|].
  apply Z.eqb_neq in E. repeat constructor; simpl; [done|].
  rewrite length_app, length_take. simpl. lia.
Qed.

Lemma snprintf_result (at_ size : Z) (text : string) :
  0 ≤ (snprintf at_ size text).2.
Proof. unfold snprintf. simpl. lia. Qed.

(** The loop of [dump] never stores outside the buffer when it starts
    with [used] within the length. *)
Lemma dump_loop_within (st : drv_state) (buff_len : Z)
    (entries : list (Z * Z)) (used : Z) :
  buff_len < 2 ^ ptr_bits → 0 ≤ used ≤ buff_len →
  Forall (write_within buff_len) (dump_loop st buff_len entries used).
Proof.
  intros Hsz. revert used.
  induction entries as [|[bo handle] rest IH]; intros used Hused;
    cbn [dump_loop]; [constructor|].
  assert (Hconv : to_size_t (buff_len - used) = buff_len - used).
  { unfold to_size_t. apply Z.mod_small. lia. }
  rewrite Hconv.
  pose proof (snprintf_within used (buff_len - used) buff_len
                (entry_text st bo handle)) as Hw.
  pose proof (snprintf_result used (buff_len - used)
                (entry_text st bo handle)) as Hn.
  destruct (snprintf used (buff_len - used) (entry_text st bo handle))
    as [wr n].
  cbn [fst snd] in *. specialize (Hw ltac:(lia) ltac:(lia) ltac:(lia)).
  destruct (buff_len <=? used + n) eqn:E; [done|].
  apply Z.leb_gt in E. apply Forall_app. split; [done|].
  apply IH. lia.
Qed.

Lemma header_length :
  Z.of_nat (length (list_ascii_of_string header_text)) = 30.
Proof. reflexivity. Qed.

(** With room for the header line, [dump] stays inside the buffer. *)
Lemma dump_within (buff_len : Z) (s : world) :
  30 ≤ buff_len < 2 ^ ptr_bits →
  Forall (write_within buff_len) (drm_mod_dump_gpu0 buff_len s).1.
Proof.
  intros Hlen. unfold drm_mod_dump_gpu0.
  assert (Hconv : to_size_t (buff_len - 0) = buff_len - 0).
  { unfold to_size_t. apply Z.mod_small. lia. }
  rewrite Hconv.
  pose proof (snprintf_within 0 (buff_len - 0) buff_len header_text
                ltac:(lia) ltac:(lia) ltac:(lia)) as Hw.
  assert (Hn : (snprintf 0 (buff_len - 0) header_text).2 = 30)
    by apply header_length.
  destruct (snprintf 0 (buff_len - 0) header_text) as [wr n].
  cbn [fst snd] in *. subst n.
  unfold bind, ret, ask, get_records. cbn [fst snd].
  apply Forall_app. split; [done|].
  apply dump_loop_within; lia.
Qed.

End Dump.

(** * The theorems on the reference driver *)

Section Reference.
#[local] Existing Instance android64.
#[local] Existing Instance RefDriver.driver.

Lemma ref_catalog_nonneg : catalog_nonneg.
Proof.
  intros fmt. simpl. unfold RefDriver.get_bpp.
  repeat case_match; lia.
Qed.

Lemma round_up_64 (a : Z) : a ≤ (a + 63) / 64 * 64.
Proof.
  pose proof (Z.div_mod (a + 63) 64 ltac:(lia)).
  pose proof (Z.mod_pos_bound (a + 63) 64 ltac:(lia)). lia.
Qed.

Lemma ref_pitch_covers_width : pitch_covers_width.
Proof.
  intros st drm w h fmt use. simpl.
  unfold RefDriver.bo_create, RefDriver.bo_get_handle.
  destruct (bool_decide _ && (0 <? w) && (0 <? h)) eqn:E; simpl; [|done].
  intros _. rewrite lookup_insert_eq. simpl.
  apply andb_prop in E as [E _]. apply andb_prop in E as [_ E].
  apply Z.ltb_lt in E.
  pose proof (ref_catalog_nonneg fmt) as Hb. simpl in Hb.
  pose proof (round_up_64 (w * RefDriver.get_bpp fmt)). nia.
Qed.

Lemma ref_lock_keeps_handles : lock_keeps_handles.
Proof.
  intros st bo use x_ y_ w h ptr hd. simpl. unfold RefDriver.bo_lock.
  by destruct (RefDriver.bos st !! bo).
Qed.

(** C1: the handle 4128 of a BO with reference count 2 (allocated, then
    registered once more) is freed twice.  The first [free] succeeds,
    takes the count to 1 and the registry from one entry to none.  The
    second [free] fails with -EINVAL and leaves the registry empty, but
    it has called [gralloc_drm_bo_decref] again: the count is down to 0
    and the BO is gone. *)
Theorem second_free_decrements_again :
  let first := drm_mod_free_gpu0 4128 with_shared in
  let second := drm_mod_free_gpu0 4128 first.2 in
  RefDriver.refcount_of (adapter with_shared) 4112 = 2
  ∧ size (all_records with_shared) = 1%nat
  ∧ first.1 = 0
  ∧ RefDriver.refcount_of (adapter first.2) 4112 = 1
  ∧ size (all_records first.2) = 0%nat
  ∧ second.1 = - EINVAL
  ∧ size (all_records second.2) = 0%nat
  ∧ calls second.2 = calls first.2 ++ [CallBoDecref 4112]
  ∧ RefDriver.refcount_of (adapter second.2) 4112 = 0.
Proof. vm_compute. repeat split. Qed.

(** C3: [dump] into a buffer of 10 bytes, with one BO in the registry,
    leaves the module as it is and stores the first 9 characters of the
    header and a NUL at the start of the buffer; the header counts for 30
    characters, so the entry is then formatted 30 bytes after the start
    with a size of 10 - 30 converted to [size_t], and all its 81 bytes
    are stored beyond the end of the buffer. *)
Theorem dump_writes_past_short_buffer :
  let r := drm_mod_dump_gpu0 10 with_yv12 in
  r.2 = with_yv12
  ∧ map (λ wr, (wr_at wr, Z.of_nat (length (wr_bytes wr)))) r.1
    = [(0, 10); (30, 81)]
  ∧ Exists (λ wr, ¬ write_within 10 wr) r.1.
Proof.
  split; [apply dump_frame|]. split; [by vm_compute|].
  apply Exists_cons_tl, Exists_cons_hd.
  unfold write_within. vm_compute. intros [_ H]. by apply H.
Qed.

(** C2 fails on the code: with usage 0 on the YV12 buffer the call
    succeeds with a null Y pointer, but the Cb and Cr pointers are the
    offset differences 19200 and 76800, not null. *)
Lemma lock_ycbcr_usage0_chroma_not_null :
  let r := drm_mod_lock_ycbcr 4128 0 0 0 320 240 blank_ycbcr with_yv12 in
  r.1.1 = 0
  ∧ y r.1.2 = NULL
  ∧ cb r.1.2 = 19200
  ∧ cr r.1.2 = 76800
  ∧ ¬ (y r.1.2 = NULL ∧ cb r.1.2 = NULL ∧ cr r.1.2 = NULL).
Proof.
  vm_compute. repeat split. intros (_ & H & _). discriminate H.
Qed.

(** C8 fails on the code: on the module as loaded, [perform] with the
    unknown op 0xDEAD returns -EINVAL, yet the bring-up it runs first has
    constructed the device: [dmod->drm] went from null to 4096 and the
    back-end holds a new device. *)
Lemma perform_unknown_op_brings_device_up :
  let r := drm_mod_perform 57005 [] fresh in
  r.1.1 = - EINVAL
  ∧ dmod_drm fresh = NULL
  ∧ dmod_drm r.2 = 4096
  ∧ calls r.2 = [CallCreate 4096]
  ∧ RefDriver.devices (adapter r.2) ≠ RefDriver.devices (adapter fresh)
  ∧ all_records r.2 = all_records fresh
  ∧ ¬ (dmod_drm r.2 = dmod_drm fresh ∧ adapter r.2 = adapter fresh).
Proof.
  repeat split; try by vm_compute.
  intros [H _]. by vm_compute in H.
Qed.

(** The allocation of the YV12 buffer: one byte per pixel, a BO at 4112,
    and a registry that had no such key. *)
Lemma create_buffer_outcome_witness :
  let r := drm_mod_create_buffer 320 240 842094169 0 7000 opened in
  842094169 ≠ HAL_PIXEL_FORMAT_IMPLEMENTATION_DEFINED
  ∧ gralloc_drm_get_bpp 842094169 ≠ 0
  ∧ r.1 = (0, Some (4128, 320))
  ∧ all_records r.2 = <[4112 := 7000]> (all_records opened)
  ∧ size (all_records r.2) = 1%nat.
Proof.
  intros r.
  destruct (create_buffer_outcome 320 240 842094169 0 7000 opened)
    as [_ H].
  assert (H1 : 842094169 ≠ HAL_PIXEL_FORMAT_IMPLEMENTATION_DEFINED)
    by by vm_compute.
  assert (H2 : gralloc_drm_get_bpp 842094169 ≠ 0) by by vm_compute.
  destruct (H H1) as (_ & _ & H3).
  destruct (H3 H2 ltac:(by vm_compute)) as (_ & _ & _ & _ & Hf).
  destruct (Hf ltac:(by vm_compute)) as [Hm Hsz].
  split; [exact H1|]. split; [exact H2|].
  split; [by vm_compute|]. split; [exact Hm|exact Hsz].
Defined.

(** An RGBA_8888 buffer of width 100: the pitch is 448 bytes, the stride
    112 pixels. *)
Lemma alloc_stride_in_pixels_witness :
  let r := drm_mod_alloc_gpu0 100 50 1 3 7000 opened in
  r.1 = (0, Some (4128, 112))
  ∧ ∃ bo,
      calls r.2 = calls opened ++ [CallBoCreate 4096 100 50 1 3 bo]
      ∧ bo ≠ NULL
      ∧ 4128 = (gralloc_drm_bo_get_handle (adapter r.2) bo).1
      ∧ 112 = (gralloc_drm_bo_get_handle (adapter r.2) bo).2 ÷ 4
      ∧ 112 * 4 ≤ (gralloc_drm_bo_get_handle (adapter r.2) bo).2
      ∧ 100 ≤ 112.
Proof.
  intros r. split; [by vm_compute|].
  exact (alloc_stride_in_pixels 100 50 1 3 7000 4128 112 opened r.2
           ref_catalog_nonneg ref_pitch_covers_width eq_refl).
Defined.

(** The planar lock of the YV12 buffer with usage 0. *)
Lemma lock_ycbcr_without_mapping_witness :
  let r := drm_mod_lock_ycbcr 4128 0 0 0 320 240 blank_ycbcr with_yv12 in
  gralloc_drm_bo_from_handle (adapter with_yv12) 4128 ≠ NULL
  ∧ r.2 = with_yv12
  ∧ r.1.1 = 0
  ∧ y r.1.2 = NULL
  ∧ ystride r.1.2 = 320
  ∧ cstride r.1.2 = 160
  ∧ cb r.1.2 = 19200
  ∧ cr r.1.2 = 76800
  ∧ (cb r.1.2 = NULL ↔ u32 96000 = u32 76800).
Proof.
  intros r.
  assert (Hbo : gralloc_drm_bo_from_handle (adapter with_yv12) 4128
                ≠ NULL) by by vm_compute.
  destruct (lock_ycbcr_without_mapping 4128 0 0 320 240 blank_ycbcr
              with_yv12 Hbo ltac:(left; by vm_compute))
    as (Hs & Hr & Hy & Hys & Hcs & Hcb & Hcr & Hnull).
  destruct (Hnull ltac:(by vm_compute)) as [Hcb0 _].
  split; [exact Hbo|]. split; [exact Hs|]. split; [exact Hr|].
  split; [exact Hy|]. split; [exact Hys|]. split; [exact Hcs|].
  split; [exact Hcb|]. split; [exact Hcr|exact Hcb0].
Defined.

(** The planar lock of the YV12 buffer with usage 3: the base is 1052688,
    and no difference wraps. *)
Lemma lock_ycbcr_chroma_pointers_witness :
  let r := drm_mod_lock_ycbcr 4128 3 0 0 320 240 blank_ycbcr with_yv12 in
  gralloc_drm_bo_lock (adapter with_yv12) 4112 3 0 0 320 240 NULL
  = (0, 1052688, adapter with_yv12)
  ∧ r.1.1 = 0
  ∧ y r.1.2 = 1052688
  ∧ cb r.1.2 = 1052688 + (96000 - 76800)
  ∧ cr r.1.2 = 1052688 + (76800 - 0).
Proof.
  intros r.
  assert (Hlock : gralloc_drm_bo_lock (adapter with_yv12) 4112 3 0 0
                    320 240 NULL = (0, 1052688, adapter with_yv12))
    by by vm_compute.
  destruct (lock_ycbcr_chroma_pointers 4128 3 0 0 320 240 1052688
              (adapter with_yv12) blank_ycbcr with_yv12
              ref_lock_keeps_handles ltac:(by vm_compute)
              ltac:(left; by vm_compute) ltac:(lia) Hlock)
    as (Hr & Hy & _ & _ & Hcb & Hcr).
  split; [exact Hlock|]. split; [exact Hr|]. split; [exact Hy|].
  split.
  - apply Hcb; vm_compute; (done || by split).
  - apply Hcr; vm_compute; (done || by split).
Defined.

(** The planar lock is refused on the RGBA_8888 buffer and accepted on
    the YV12 buffer. *)
Lemma lock_ycbcr_accepted_formats_witness :
  drm_mod_lock_ycbcr 4128 3 0 0 100 50 blank_ycbcr with_rgba
  = ((- EINVAL, blank_ycbcr), with_rgba)
  ∧ let r := drm_mod_lock_ycbcr 4128 3 0 0 320 240 blank_ycbcr
               with_yv12 in
    r.1.1 = 0
    ∧ ystride r.1.2 = 320 ∧ cstride r.1.2 = 160 ∧ chroma_step r.1.2 = 1.
Proof.
  split.
  - destruct (lock_ycbcr_accepted_formats 4128 3 0 0 100 50 blank_ycbcr
                with_rgba ref_lock_keeps_handles ltac:(by vm_compute))
      as [Hbad _].
    apply Hbad; by vm_compute.
  - intros r.
    destruct (lock_ycbcr_accepted_formats 4128 3 0 0 320 240 blank_ycbcr
                with_yv12 ref_lock_keeps_handles ltac:(by vm_compute))
      as [_ Hok].
    destruct (Hok ltac:(left; by vm_compute)) as (Hr & Hfill & _).
    split; [exact Hr|]. exact (Hfill eq_refl).
Defined.

(** The op 0xDEAD on a live device. *)
Lemma perform_unknown_op_witness :
  57005 ≠ GRALLOC_MODULE_PERFORM_GET_DRM_FD
  ∧ dmod_drm with_yv12 ≠ NULL
  ∧ drm_mod_perform 57005 [1; 2] with_yv12 = ((- EINVAL, []), with_yv12).
Proof.
  assert (H1 : 57005 ≠ GRALLOC_MODULE_PERFORM_GET_DRM_FD) by by vm_compute.
  assert (Hlive : dmod_drm with_yv12 ≠ NULL) by by vm_compute.
  destruct (perform_unknown_op 57005 [1; 2] with_yv12 H1
              ltac:(by vm_compute) ltac:(by vm_compute)
              ltac:(by vm_compute))
    as (Hr & _ & _).
  split; [exact H1|]. split; [exact Hlive|].
  rewrite Hr, drm_init_live by exact Hlive. reflexivity.
Defined.

(** Open, allocate, close, then perform, register and open again. *)
Lemma close_keeps_device_pointer_witness :
  let s := run [OpAlloc 320 240 842094169 0 7000]
               (drm_mod_open "gpu0" fresh).2 in
  let s' := run [OpPerform 57005 []; OpRegister 4128; OpOpen "gpu0"]
                (drm_mod_close_gpu0 s).2 in
  (drm_mod_open "gpu0" fresh).1.1 = 0
  ∧ calls (drm_mod_close_gpu0 s).2 = calls s ++ [CallDestroy 4096]
  ∧ dmod_drm s' = 4096
  ∧ drm_init s' = (0, s').
Proof.
  intros s s'.
  assert (Hopen : (drm_mod_open "gpu0" fresh).1.1 = 0) by by vm_compute.
  destruct (close_keeps_device_pointer "gpu0"
              [OpAlloc 320 240 842094169 0 7000]
              [OpPerform 57005 []; OpRegister 4128; OpOpen "gpu0"]
              fresh Hopen)
    as (_ & _ & Hcalls & _ & Hptr & _ & Hinit).
  split; [exact Hopen|]. split; [exact Hcalls|].
  split; [exact Hptr|exact Hinit].
Defined.



End Reference.

(** * Further properties of the module *)

(** Splits a run into the cases of its conditionals and of the adapter's
    answers. *)
Ltac run_cases :=
  run_monad; repeat (case_match; simpl in *; simplify_eq); try done.

(** Rewrites the comparisons whose outcome is among the hypotheses. *)
Ltac use_tests :=
  repeat match goal with
         | H : (?a =? ?b) = _ |- context [?a =? ?b] => rewrite H
         end.

(** Unfolds the operations behind a call from the host, all but [dump]. *)
Ltac unfold_ops :=
  try unfold drm_mod_open; try unfold drm_mod_open_gpu0;
  try unfold drm_mod_close_gpu0;
  try unfold drm_mod_alloc_gpu0; try unfold drm_mod_free_gpu0;
  try unfold drm_mod_register_buffer;
  try unfold drm_mod_unregister_buffer;
  try unfold drm_mod_lock; try unfold drm_mod_lock_ycbcr;
  try unfold drm_mod_unlock; try unfold drm_mod_perform;
  try unfold drm_mod_create_buffer; try unfold drm_mod_destroy_buffer;
  try unfold drm_init.

Section BringUp.
Context `{Plat : Platform} `{Drv : DriverAdapter}.

(** X1: [drm_init] returns 0 or -EINVAL, and 0 exactly when it leaves a
    device pointer in the module; after a success a further bring-up
    returns 0 and changes nothing; after a failure the pointer is still
    null, so the next bring-up tries again; the registry is never
    touched. *)
Theorem drm_init_outcome (s : world) :
  let r := drm_init s in
  (r.1 = 0 ∨ r.1 = - EINVAL)
  ∧ (r.1 = 0 ↔ dmod_drm r.2 ≠ NULL)
  ∧ (r.1 = 0 → drm_init r.2 = (0, r.2))
  ∧ (r.1 ≠ 0 →
     dmod_drm s = NULL ∧ dmod_drm r.2 = NULL
     ∧ calls r.2 = calls s ++ [CallCreate NULL])
  ∧ all_records r.2 = all_records s.
Proof.
  intros r. subst r. unfold drm_init. run_monad.
  destruct (dmod_drm s =? NULL) eqn:E; simpl.
  - apply Z.eqb_eq in E.
    destruct (gralloc_drm_create (adapter s)) as [d st] eqn:Hc. simpl.
    destruct (d =? NULL) eqn:Ed; simpl.
    + apply Z.eqb_eq in Ed. subst d.
      split; [by right|]. split; [done|]. split; [done|]. done.
    + split; [by left|]. apply Z.eqb_neq in Ed.
      split; [done|]. split; [|done].
      intros _. apply Z.eqb_neq in Ed. by rewrite Ed.
  - split; [by left|]. split; [by apply Z.eqb_neq in E|].
    split; [by rewrite E|]. done.
Qed.

(** X4: [open] with any name but the GPU0 allocator's fails with -EINVAL,
    stores no device and leaves the module untouched, without bringing
    the device up.  With that name it runs the bring-up: when that fails
    it returns its error and stores no device; when it succeeds it
    returns 0 and stores an [alloc_device_t] with the device tag, version
    0 and the module's [close], [alloc], [free] and [dump] as methods.
    Once an [open] has succeeded, any later [open] leaves the state of
    the module as it is, and with the GPU0 name hands out a device of the
    same contents again. *)
Theorem open_by_name (name : string) (s : world) :
  let r := drm_mod_open name s in
  (name ≠ GRALLOC_HARDWARE_GPU0 → r = ((- EINVAL, None), s))
  ∧ (name = GRALLOC_HARDWARE_GPU0 →
     r.2 = (drm_init s).2
     ∧ r.1.1 = (drm_init s).1
     ∧ ((drm_init s).1 ≠ 0 → r.1.2 = None)
     ∧ ((drm_init s).1 = 0 →
        ∃ device,
          r.1.2 = Some device
          ∧ common_tag device = HARDWARE_DEVICE_TAG
          ∧ common_version device = 0
          ∧ common_close device = drm_mod_close_gpu0
          ∧ alloc device = drm_mod_alloc_gpu0
          ∧ free device = drm_mod_free_gpu0
          ∧ dump device = drm_mod_dump_gpu0))
  ∧ (r.1.1 = 0 →
     ∀ again,
       let r' := drm_mod_open again r.2 in
       r'.2 = r.2 ∧ (again = GRALLOC_HARDWARE_GPU0 → r'.1 = r.1)).
Proof.
  intros r. split; [|split].
  - intros Hn. subst r. unfold drm_mod_open.
    by destruct (String.eqb_spec name GRALLOC_HARDWARE_GPU0).
  - intros ->. subst r.
    unfold drm_mod_open, drm_mod_open_gpu0, bind, ret.
    rewrite String.eqb_refl.
    destruct (drm_init s) as [err s1]. simpl.
    destruct (Z.eqb_spec err 0) as [->|Hne]; simpl.
    + split; [done|]. split; [done|]. split; [done|].
      intros _. eexists. split; [done|]. done.
    + split; [done|]. split; [done|]. split; [done|]. done.
  - intros Hok again r'.
    pose proof (open_sets_device name s Hok) as Hlive.
    assert (Hname : name = GRALLOC_HARDWARE_GPU0).
    { subst r. unfold drm_mod_open in Hok.
      by destruct (String.eqb_spec name GRALLOC_HARDWARE_GPU0). }
    assert (Hdev : r.1 = (0, Some {| common_tag := HARDWARE_DEVICE_TAG;
                                     common_version := 0;
                                     common_close := drm_mod_close_gpu0;
                                     alloc := drm_mod_alloc_gpu0;
                                     free := drm_mod_free_gpu0;
                                     dump := drm_mod_dump_gpu0 |})).
    { subst r name. revert Hok.
      unfold drm_mod_open, drm_mod_open_gpu0, bind, ret.
      rewrite String.eqb_refl.
      destruct (drm_init s) as [err s1]. simpl.
      by destruct (Z.eqb_spec err 0) as [->|Hne]. }
    subst r'. fold r in Hlive. set (s1 := r.2) in *.
    unfold drm_mod_open, drm_mod_open_gpu0, bind, ret.
    destruct (String.eqb_spec again GRALLOC_HARDWARE_GPU0) as [->|Hagain].
    + rewrite drm_init_live by done. simpl. by rewrite Hdev.
    + done.
Qed.

(** X3: when the module has no device and [gralloc_drm_create] returns
    null, [open], [registerBuffer] and [perform] with any op all fail with
    -EINVAL after that one call into the adapter: no handle is registered,
    no op is dispatched, nothing is stored for the caller, and the pointer
    stays null. *)
Theorem bring_up_failure
    (handle op : Z) (args : list Z) (s : world) :
  dmod_drm s = NULL →
  (gralloc_drm_create (adapter s)).1 = NULL →
  let s' := {| dmod_drm := NULL; all_records := all_records s;
               adapter := (gralloc_drm_create (adapter s)).2;
               calls := calls s ++ [CallCreate NULL] |} in
  drm_mod_open GRALLOC_HARDWARE_GPU0 s = ((- EINVAL, None), s')
  ∧ drm_mod_register_buffer handle s = (- EINVAL, s')
  ∧ drm_mod_perform op args s = ((- EINVAL, []), s').
Proof.
  intros Hnull Hfail s'.
  assert (Hinit : drm_init s = (- EINVAL, s')).
  { subst s'. unfold drm_init. run_monad. rewrite Hnull. simpl.
    destruct (gralloc_drm_create (adapter s)) as [d st]. simpl in *.
    by subst d. }
  unfold drm_mod_open, drm_mod_open_gpu0, drm_mod_register_buffer,
    drm_mod_perform, bind.
  rewrite String.eqb_refl, Hinit. done.
Qed.

(** One call from the host keeps the log of constructed devices in
    agreement with [dmod->drm]. *)
Lemma step_device_log (s : world) (o : facade_op) :
  device_log_agrees s → device_log_agrees (step s o).
Proof.
  unfold device_log_agrees, created_devices. intros Hinv.
  destruct o; cbn [step];
    [ unfold drm_mod_open, drm_mod_open_gpu0, drm_init
    | unfold drm_mod_close_gpu0
    | unfold drm_mod_alloc_gpu0, drm_mod_create_buffer
    | unfold drm_mod_free_gpu0, drm_mod_destroy_buffer
    | by rewrite dump_frame
    | unfold drm_mod_register_buffer, drm_init
    | unfold drm_mod_unregister_buffer
    | unfold drm_mod_lock
    | unfold drm_mod_lock_ycbcr
    | unfold drm_mod_unlock
    | unfold drm_mod_perform, drm_init, drm_mod_create_buffer,
        drm_mod_destroy_buffer ];
    run_cases; rewrite ?omap_app, ?Hinv; simpl; use_tests; simpl;
    rewrite ?app_nil_r; done || congruence.
Qed.

Lemma run_device_log (ops : list facade_op) (s : world) :
  device_log_agrees s → device_log_agrees (run ops s).
Proof.
  revert s. induction ops as [|o ops IH]; intros s Hinv; [done|].
  apply IH. by apply step_device_log.
Qed.

(** X2: over any sequence of calls from the host on a module as loaded,
    [dmod->drm] is null exactly as long as no [gralloc_drm_create] has
    returned a device, and from then on it is the one device that was
    ever constructed: no second device is created, whatever is opened,
    closed, registered or performed. *)
Theorem device_singleton (st : drv_state) (ops : list facade_op) :
  let s := run ops (initial_world st) in
  created_devices (calls s)
  = if dmod_drm s =? NULL then [] else [dmod_drm s].
Proof. by apply run_device_log. Qed.

End BringUp.

Section Registry.
Context `{Plat : Platform} `{Drv : DriverAdapter}.

(** X5: the registry changes only through [alloc], [free] and the two
    buffer ops of [perform]: [open], [close], [dump], [registerBuffer],
    [unregisterBuffer], [lock], [lock_ycbcr], [unlock] and [perform] with
    any other op leave it exactly as it is, so a BO that arrives through
    [registerBuffer] never enters it. *)
Theorem registry_frame (s : world) (o : facade_op) :
  leaves_registry o → all_records (step s o) = all_records s.
Proof.
  intros Hleaves.
  destruct o; cbn [step leaves_registry] in *; try done;
    try (by rewrite dump_frame);
    try (apply proj1 in Hleaves as H1; apply proj2 in Hleaves as H2;
         apply Z.eqb_neq in H1, H2);
    unfold_ops; run_cases; congruence.
Qed.

(** X7: [destroy_buffer] on a handle that resolves to no BO fails with
    -EINVAL and does nothing.  On a handle that resolves it always drops
    one reference and leaves the registry without that BO, other entries
    untouched; it returns 0 exactly when the BO was in the registry, and
    -EINVAL otherwise, as for a BO that was only registered here. *)
Theorem destroy_buffer_outcome (handle : Z) (s : world) :
  let bo := gralloc_drm_bo_from_handle (adapter s) handle in
  let r := drm_mod_destroy_buffer handle s in
  dmod_drm r.2 = dmod_drm s
  ∧ (bo = NULL → r = (- EINVAL, s))
  ∧ (bo ≠ NULL →
     adapter r.2 = gralloc_drm_bo_decref (adapter s) bo
     ∧ calls r.2 = calls s ++ [CallBoDecref bo]
     ∧ all_records r.2 = delete bo (all_records s)
     ∧ (r.1 = 0 ↔ bo ∈ dom (all_records s))
     ∧ (r.1 ≠ 0 → r.1 = - EINVAL ∧ all_records r.2 = all_records s)).
Proof.
  intros bo r. subst r. unfold drm_mod_destroy_buffer. run_monad.
  fold bo. destruct (bo =? NULL) eqn:En; simpl.
  - apply Z.eqb_eq in En. by rewrite En.
  - apply Z.eqb_neq in En. rewrite elem_of_dom.
    destruct (all_records s !! bo) as [v|] eqn:Hin; simpl.
    + split; [done|]. split; [done|]. intros _.
      do 3 (split; [done|]). split; [by eauto|]. by intros H.
    + split; [done|]. split; [done|]. intros _.
      split; [done|]. split; [done|].
      split; [by rewrite delete_id|].
      split; [|done]. split; [done|]. by intros [? ?].
Qed.

(** X8: allocate, then free.  If [alloc] succeeds with a BO that was not
    yet a key of the registry, the registry then maps that BO to the
    caller's handle slot; and if the adapter resolves the returned handle
    to that BO, [free] of the handle succeeds after one
    [gralloc_drm_bo_decref] and the registry is again what it was before
    the allocation. *)
Theorem alloc_free_round_trip
    (w h format usage slot hd stride : Z) (s s1 : world) :
  let fmt := if format =? HAL_PIXEL_FORMAT_IMPLEMENTATION_DEFINED
             then HAL_PIXEL_FORMAT_RGBA_8888 else format in
  let bo :=
    (gralloc_drm_bo_create (adapter s) (dmod_drm s) w h fmt usage).1 in
  drm_mod_alloc_gpu0 w h format usage slot s
  = ((0, Some (hd, stride)), s1) →
  all_records s !! bo = None →
  gralloc_drm_bo_from_handle (adapter s1) hd = bo →
  all_records s1 !! bo = Some slot
  ∧ size (all_records s1) = S (size (all_records s))
  ∧ let r := drm_mod_free_gpu0 hd s1 in
    r.1 = 0
    ∧ all_records r.2 = all_records s
    ∧ dmod_drm r.2 = dmod_drm s
    ∧ calls r.2 = calls s1 ++ [CallBoDecref bo].
Proof.
  intros fmt bo Halloc Hfresh Hres.
  unfold drm_mod_alloc_gpu0, drm_mod_create_buffer in Halloc.
  fold fmt in Halloc.
  destruct (gralloc_drm_get_bpp fmt =? 0); [by inversion Halloc|].
  run_monad. subst bo.
  destruct (gralloc_drm_bo_create (adapter s) (dmod_drm s) w h fmt usage)
    as [b st'] eqn:Hc.
  simpl in *.
  destruct (b =? NULL) eqn:En; [by inversion Halloc|]. cbn in Halloc.
  destruct (gralloc_drm_bo_get_handle st' b) as [hd' p].
  revert Hres Hfresh. inversion Halloc; subst; clear Halloc.
  simpl. intros Hres Hfresh.
  rewrite map_insert_new_fresh by done.
  split; [by rewrite lookup_insert_eq|].
  split; [by apply map_size_insert_None|].
  unfold drm_mod_free_gpu0, drm_mod_destroy_buffer. run_monad.
  rewrite Hres, En. simpl. rewrite lookup_insert_eq. simpl.
  repeat (split; [done|]). split; [|done].
  by rewrite delete_insert_id.
Qed.

Lemma map_insert_new_dom_cases (k v bo : Z) (m : gmap Z Z) :
  bo ∈ dom (map_insert_new k v m) → bo = k ∨ bo ∈ dom m.
Proof.
  unfold map_insert_new. destruct (m !! k); [by right|].
  rewrite dom_insert_L. set_solver.
Qed.

(** What one call from the host adds: calls at the end of the log, and
    to the registry only non-null BOs whose creation is in the log. *)
Lemma step_extends (s : world) (o : facade_op) :
  (∃ new, calls (step s o) = calls s ++ new)
  ∧ (∀ bo, bo ∈ dom (all_records (step s o)) →
           bo ∈ dom (all_records s)
           ∨ (bo ≠ NULL ∧ bo ∈ created_bos (calls (step s o)))).
Proof.
  destruct o; cbn [step]; try rewrite dump_frame;
    unfold_ops; run_cases;
    (simpl; split;
     [ first [ by exists []; rewrite app_nil_r
             | eexists; by rewrite <- ?app_assoc ]
     | intros bo Hbo; simpl in Hbo;
       first
         [ by left
         | left; rewrite dom_delete_L in Hbo; set_solver
         | destruct (map_insert_new_dom_cases _ _ _ _ Hbo) as [Heq|Hold];
           [ right; rewrite Heq; split;
             [ by apply Z.eqb_neq
             | unfold created_bos; rewrite !omap_app; simpl; use_tests;
               set_solver ]
           | by left ] ] ]).
Qed.

Lemma step_registry_from_alloc (s : world) (o : facade_op) :
  registry_from_alloc s → registry_from_alloc (step s o).
Proof.
  intros Hinv bo Hbo.
  destruct (step_extends s o) as [[new Hcalls] Hdom].
  destruct (Hdom bo Hbo) as [Hold|Hnew]; [|done].
  destruct (Hinv bo Hold) as [Hnn Hin]. split; [done|].
  rewrite Hcalls. unfold created_bos in *. rewrite omap_app.
  apply elem_of_app. by left.
Qed.

(** X6: over any sequence of calls from the host on a module as loaded,
    every key of the registry is a non-null BO that this module obtained
    from [gralloc_drm_bo_create]: neither a null pointer nor a BO that
    only came in through [registerBuffer] is ever recorded. *)
Theorem registry_keys_come_from_alloc
    (st : drv_state) (ops : list facade_op) (bo : Z) :
  let s := run ops (initial_world st) in
  bo ∈ dom (all_records s) →
  bo ≠ NULL ∧ bo ∈ created_bos (calls s).
Proof.
  intros s. subst s.
  assert (Hrun : ∀ ops s, registry_from_alloc s →
                          registry_from_alloc (run ops s)).
  { clear. induction ops as [|o ops IH]; intros s Hinv; [done|].
    apply IH. by apply step_registry_from_alloc. }
  apply Hrun. intros k Hk. simpl in Hk. set_solver.
Qed.

End Registry.

Section Perform.
Context `{Plat : Platform} `{Drv : DriverAdapter}.

(** A [uint32_t] that fits an [int] converts to itself. *)
Lemma to_int_u32_small (z : Z) : 0 ≤ z < 2 ^ 31 → to_int (u32 z) = z.
Proof.
  intros Hz. unfold to_int, u32.
  rewrite Z.mod_mod by lia. rewrite Z.mod_small by lia.
  destruct (z <? 2 ^ 31) eqn:E; [done|]. apply Z.ltb_ge in E. lia.
Qed.

Lemma ops_distinct :
  perform_ops_distinct →
  GRALLOC_MODULE_PERFORM_DRM_IMPORT ≠ GRALLOC_MODULE_PERFORM_GET_DRM_FD
  ∧ GRALLOC_MODULE_PERFORM_CREATE_BUFFER
    ≠ GRALLOC_MODULE_PERFORM_GET_DRM_FD
  ∧ GRALLOC_MODULE_PERFORM_CREATE_BUFFER
    ≠ GRALLOC_MODULE_PERFORM_DRM_IMPORT
  ∧ GRALLOC_MODULE_PERFORM_DESTROY_BUFFER
    ≠ GRALLOC_MODULE_PERFORM_GET_DRM_FD
  ∧ GRALLOC_MODULE_PERFORM_DESTROY_BUFFER
    ≠ GRALLOC_MODULE_PERFORM_DRM_IMPORT
  ∧ GRALLOC_MODULE_PERFORM_DESTROY_BUFFER
    ≠ GRALLOC_MODULE_PERFORM_CREATE_BUFFER.
Proof.
  unfold perform_ops_distinct. rewrite !NoDup_cons.
  intros (H1 & H2 & H3 & _). set_solver.
Qed.

(** X9: when [perform(GET_DRM_FD)] succeeds it stores the descriptor of
    the module's device through its pointer argument and, apart from a
    bring-up it may have had to do, changes nothing; a second call right
    after it changes nothing at all and stores the same descriptor. *)
Theorem perform_get_fd_stable
    (p q : Z) (rest1 rest2 : list Z) (s : world) :
  let r1 := drm_mod_perform GRALLOC_MODULE_PERFORM_GET_DRM_FD
                            (p :: rest1) s in
  let fd := gralloc_drm_get_fd (adapter r1.2) (dmod_drm r1.2) in
  r1.1.1 = 0 →
  r1.1.2 = [(p, fd)]
  ∧ r1.2 = (drm_init s).2
  ∧ drm_mod_perform GRALLOC_MODULE_PERFORM_GET_DRM_FD (q :: rest2) r1.2
    = ((0, [(q, fd)]), r1.2).
Proof.
  intros r1 fd Hok.
  assert (Hlive : ∀ a rest s',
            dmod_drm s' ≠ NULL →
            drm_mod_perform GRALLOC_MODULE_PERFORM_GET_DRM_FD (a :: rest) s'
            = ((0, [(a, gralloc_drm_get_fd (adapter s') (dmod_drm s'))]),
               s')).
  { intros a rest s' Hs'. unfold drm_mod_perform, bind.
    rewrite drm_init_live by done. simpl. by rewrite Z.eqb_refl. }
  assert (Hr1 : r1.2 = (drm_init s).2 ∧ dmod_drm r1.2 ≠ NULL
                ∧ r1.1.2 = [(p, fd)]).
  { subst fd r1. revert Hok. unfold drm_mod_perform, bind.
    destruct (drm_init_status s) as [[Hs Hl]|Hs];
      destruct (drm_init s) as [err s1]; simpl in *; subst err; simpl;
      [|done].
    rewrite Z.eqb_refl. by run_monad. }
  destruct Hr1 as (Hs1 & Hl & Hst).
  split; [done|]. split; [done|]. by apply Hlive.
Qed.

(** X10: once the bring-up has succeeded, [perform(CREATE_BUFFER)] with a
    width and height that fit an [int] is [alloc] with the same
    arguments, except that the stride is dropped and only the handle is
    stored for the caller, and [perform(DESTROY_BUFFER)] is [free]. *)
Theorem perform_buffer_ops
    (w h format usage slot hd : Z) (s : world) :
  perform_ops_distinct →
  (drm_init s).1 = 0 →
  0 ≤ w < 2 ^ 31 → 0 ≤ h < 2 ^ 31 →
  let s1 := (drm_init s).2 in
  let made := drm_mod_alloc_gpu0 w h format usage slot s1 in
  let freed := drm_mod_free_gpu0 hd s1 in
  drm_mod_perform GRALLOC_MODULE_PERFORM_CREATE_BUFFER
                  [w; h; format; usage; slot] s
  = ((made.1.1,
      match made.1.2 with Some (new, _) => [(slot, new)] | None => [] end),
     made.2)
  ∧ drm_mod_perform GRALLOC_MODULE_PERFORM_DESTROY_BUFFER [hd] s
    = ((freed.1, []), freed.2).
Proof.
  intros Hops Hok Hw Hh s1 made freed. subst made freed s1.
  destruct (ops_distinct Hops) as (_ & H1 & H2 & H3 & H4 & H5).
  apply Z.eqb_neq in H1, H2, H3, H4, H5.
  unfold drm_mod_perform, bind, drm_mod_alloc_gpu0, drm_mod_free_gpu0.
  destruct (drm_init s) as [err s1]. simpl in *. subst err. simpl.
  rewrite H1, H2, H3, H4, H5, !Z.eqb_refl.
  unfold va_arg. simpl. rewrite !to_int_u32_small by done.
  split.
  - destruct (drm_mod_create_buffer w h format usage slot s1)
      as [[e [[new stride]|]] s2]; done.
  - by destruct (drm_mod_destroy_buffer hd s1).
Qed.

(** X11: once the bring-up has succeeded, [perform(DRM_IMPORT)] leaves
    the registry and [dmod->drm] alone.  It fails with -EINVAL, calling
    nothing and storing nothing, when the handle is not a gralloc handle
    or when the driver has no [resolve_buffer]; otherwise it calls the
    driver's [resolve_buffer] once, and its status and what is stored
    into the caller's [HwcBuffer] are the driver's. *)
Theorem perform_import_outcome
    (fd handle hwc_bo : Z) (rest : list Z) (s : world) :
  GRALLOC_MODULE_PERFORM_DRM_IMPORT ≠ GRALLOC_MODULE_PERFORM_GET_DRM_FD →
  (drm_init s).1 = 0 →
  let s1 := (drm_init s).2 in
  let gr := gralloc_drm_handle (adapter s1) handle in
  let r := drm_mod_perform GRALLOC_MODULE_PERFORM_DRM_IMPORT
                           (fd :: handle :: hwc_bo :: rest) s in
  all_records r.2 = all_records s
  ∧ dmod_drm r.2 = dmod_drm s1
  ∧ (gr = NULL ∨ drv_resolve_buffer = None → r = ((- EINVAL, []), s1))
  ∧ (∀ resolve_buffer,
       gr ≠ NULL → drv_resolve_buffer = Some resolve_buffer →
       let done := resolve_buffer (adapter s1) fd gr hwc_bo in
       r.1 = done.1 ∧ adapter r.2 = done.2
       ∧ calls r.2
         = calls s1 ++ [CallResolveBuffer fd gr hwc_bo done.1.1]).
Proof.
  intros Hop Hok s1 gr r. subst r gr s1.
  apply Z.eqb_neq in Hop.
  pose proof (drm_init_records s) as Hrec.
  unfold drm_mod_perform, bind.
  destruct (drm_init s) as [err s1]. simpl in *. subst err. simpl.
  rewrite Hop, Z.eqb_refl. unfold va_arg. run_monad.
  destruct (gralloc_drm_handle (adapter s1) handle =? NULL) eqn:Eg.
  - apply Z.eqb_eq in Eg. simpl. do 2 (split; [done|]).
    split; [done|]. intros f Hne. done.
  - apply Z.eqb_neq in Eg.
    destruct drv_resolve_buffer as [f|] eqn:Hdrv; simpl.
    + destruct (f (adapter s1) fd _ hwc_bo) as [[e filled] st] eqn:Hf.
      simpl.
      do 2 (split; [done|]). split; [by intros [?|?]|].
      intros f' _ Hf'. simplify_eq. by rewrite Hf.
    + do 2 (split; [done|]). split; [done|]. by intros f' _ Hf'.
Qed.

End Perform.

Section Census.
Context `{Plat : Platform} `{Drv : DriverAdapter}.

(** X12: [lock_ycbcr] never touches [dmod->drm] or the registry and calls
    nothing but, at most once, the driver's lock; whenever it returns a
    failure the caller's [android_ycbcr] is left as it was, and on a
    handle that resolves to no BO it fails with -EINVAL without any
    call. *)
Theorem lock_ycbcr_failure
    (bhandle usage x_ y_ w h : Z) (ycbcr : android_ycbcr) (s : world) :
  let bo := gralloc_drm_bo_from_handle (adapter s) bhandle in
  let r := drm_mod_lock_ycbcr bhandle usage x_ y_ w h ycbcr s in
  dmod_drm r.2 = dmod_drm s
  ∧ all_records r.2 = all_records s
  ∧ (r.1.1 ≠ 0 → r.1.2 = ycbcr)
  ∧ (bo = NULL → r = ((- EINVAL, ycbcr), s))
  ∧ (r.2 = s
     ∨ ∃ err, calls r.2 = calls s ++ [CallBoLock bo usage x_ y_ w h err]).
Proof.
  intros bo r. subst r bo. unfold drm_mod_lock_ycbcr.
  run_cases; repeat split; try done; try (by left); try (by right; eauto);
    match goal with
    | H : (_ =? NULL) = false |- _ = NULL → _ =>
        by intros ?; apply Z.eqb_neq in H
    end.
Qed.

Lemma records_in_order_empty : records_in_order ∅ = [].
Proof. unfold records_in_order. by rewrite map_to_list_empty. Qed.

Lemma records_in_order_nonempty (m : gmap Z Z) :
  m ≠ ∅ → records_in_order m ≠ [].
Proof.
  intros Hm Hnil. apply Hm, map_to_list_empty_iff.
  apply Permutation_nil_r. rewrite <- Hnil. unfold records_in_order.
  by rewrite merge_sort_Permutation.
Qed.

(** X13: for a buffer length that is not negative and fits [size_t],
    every store of [dump] stays inside the buffer exactly when the length
    is at least the 30 characters of the header line or the registry is
    empty; with a shorter buffer and a BO in the registry the first entry
    is stored past the end. *)
Theorem dump_in_bounds_iff (buff_len : Z) (s : world) :
  5 ≤ ptr_bits →
  0 ≤ buff_len < 2 ^ ptr_bits →
  Forall (write_within buff_len) (drm_mod_dump_gpu0 buff_len s).1
  ↔ 30 ≤ buff_len ∨ all_records s = ∅.
Proof.
  intros Hbits Hlen.
  assert (Hconv : to_size_t (buff_len - 0) = buff_len - 0).
  { unfold to_size_t. apply Z.mod_small. lia. }
  split.
  - intros Hall. destruct (decide (30 ≤ buff_len)) as [|Hshort]; [by left|].
    destruct (decide (all_records s = ∅)) as [|Hne]; [by right|].
    exfalso. apply records_in_order_nonempty in Hne.
    revert Hall. unfold drm_mod_dump_gpu0.
    assert (Hn : (snprintf 0 (to_size_t (buff_len - 0)) header_text).2
                 = 30) by apply header_length.
    destruct (snprintf 0 (to_size_t (buff_len - 0)) header_text)
      as [wr n].
    cbn [fst snd] in *. subst n.
    unfold bind, ret, ask, get_records. cbn [fst snd].
    destruct (records_in_order (all_records s)) as [|[bo hd] rest];
      [done|].
    cbn [dump_loop]. rewrite Z.add_0_l.
    assert (Hsize : to_size_t (buff_len - 30) ≠ 0).
    { unfold to_size_t.
      pose proof (Z.pow_le_mono_r 2 5 ptr_bits ltac:(lia) Hbits).
      rewrite <- (Z.mod_add _ 1) by lia.
      rewrite Z.mod_small by lia. lia. }
    unfold snprintf. apply Z.eqb_neq in Hsize. rewrite Hsize.
    cbn [fst snd]. intros Hall.
    apply Forall_app in Hall as [_ Hall].
    assert (Hfirst : ∀ tl,
              Forall (write_within buff_len)
                ({| wr_at := 30;
                    wr_bytes :=
                      take (Z.to_nat
                              (Z.min (to_size_t (buff_len - 30) - 1)
                                 (Z.of_nat
                                    (length
                                       (list_ascii_of_string
                                          (entry_text (adapter s) bo hd))))))
                        (list_ascii_of_string
                           (entry_text (adapter s) bo hd))
                      ++ ["000"%char] |} :: tl) → False).
    { intros tl Htl. apply Forall_cons in Htl as [[_ Hin] _].
      simpl in Hin. lia. }
    destruct (buff_len <=? _); [by apply (Hfirst [])|].
    by apply (Hfirst _) in Hall.
  - intros [Hroom|Hempty]; [apply dump_within; lia|].
    unfold drm_mod_dump_gpu0. rewrite Hconv.
    pose proof (snprintf_within 0 (buff_len - 0) buff_len header_text
                  ltac:(lia) ltac:(lia) ltac:(lia)) as Hw.
    destruct (snprintf 0 (buff_len - 0) header_text) as [wr n].
    cbn [fst snd] in *.
    unfold bind, ret, ask, get_records. cbn [fst snd].
    rewrite Hempty, records_in_order_empty. cbn [dump_loop].
    by rewrite app_nil_r.
Qed.

(** With room for every line, the loop of [dump] stores each entry in
    full. *)
Lemma dump_loop_full (st : drv_state) (buff_len : Z)
    (entries : list (Z * Z)) (used : Z) :
  let text e := list_ascii_of_string (entry_text st e.1 e.2) in
  0 ≤ used →
  used + Z.of_nat (sum_list_with (λ e, length (text e)) entries)
  < buff_len →
  buff_len < 2 ^ ptr_bits →
  dump_loop st buff_len entries used
  = lines_from used (map text entries).
Proof.
  intros text. revert used.
  induction entries as [|[bo hd] rest IH]; intros used Hused Hroom Hsz;
    [done|].
  cbn [dump_loop map lines_from sum_list_with] in *.
  change (text (bo, hd))
    with (list_ascii_of_string (entry_text st bo hd)) in *.
  set (chars := list_ascii_of_string (entry_text st bo hd)) in *.
  assert (Hconv : to_size_t (buff_len - used) = buff_len - used).
  { unfold to_size_t. apply Z.mod_small. lia. }
  rewrite Hconv. unfold snprintf. fold chars.
  destruct (buff_len - used =? 0) eqn:E0; [apply Z.eqb_eq in E0; lia|].
  rewrite Z.min_r by lia. rewrite Nat2Z.id, take_ge by done.
  destruct (buff_len <=? used + Z.of_nat (length chars)) eqn:E.
  - apply Z.leb_le in E. lia.
  - cbn [app]. f_equal. apply IH; lia.
Qed.

(** X14: with room for the header, every line and the final NUL, [dump]
    stores the header line at the start of the buffer and then one line
    for every entry of the registry, each entry once, in ascending order
    of the BO pointer, each line in full and starting on the NUL that
    ended the one before. *)
Theorem dump_lists_registry (buff_len : Z) (s : world) :
  let entries := records_in_order (all_records s) in
  let text e := list_ascii_of_string (entry_text (adapter s) e.1 e.2) in
  30 + Z.of_nat (sum_list_with (λ e, length (text e)) entries)
  < buff_len →
  buff_len < 2 ^ ptr_bits →
  entries ≡ₚ map_to_list (all_records s)
  ∧ Sorted key_le entries
  ∧ (drm_mod_dump_gpu0 buff_len s).1
    = lines_from 0 (list_ascii_of_string header_text :: map text entries).
Proof.
  intros entries text Hroom Hsz.
  split; [apply merge_sort_Permutation|].
  split.
  { apply Sorted_merge_sort. intros a b. unfold key_le. lia. }
  unfold drm_mod_dump_gpu0.
  assert (Hconv : to_size_t (buff_len - 0) = buff_len - 0).
  { unfold to_size_t. apply Z.mod_small. lia. }
  rewrite Hconv. unfold snprintf at 1.
  rewrite header_length.
  destruct (buff_len - 0 =? 0) eqn:E0; [apply Z.eqb_eq in E0; lia|].
  rewrite Z.min_r by lia.
  unfold bind, ret, ask, get_records. cbn [fst snd lines_from].
  fold entries. rewrite header_length.
  rewrite (dump_loop_full (adapter s) buff_len entries (0 + 30));
    [|lia|rewrite Z.add_0_l; exact Hroom|done].
  done.
Qed.

End Census.

(** * The further properties on the reference driver *)

Section ReferenceRuns.
#[local] Existing Instance android64.
#[local] Existing Instance RefDriver.driver.

Lemma android64_ops_distinct : perform_ops_distinct.
Proof. unfold perform_ops_distinct. vm_compute. apply NoDup_ListNoDup.
  repeat constructor; simpl; intuition discriminate.
Qed.

(** Bring-up of the module as loaded, and once more. *)
Lemma drm_init_outcome_witness :
  (drm_init fresh).1 = 0
  ∧ dmod_drm (drm_init fresh).2 ≠ NULL
  ∧ drm_init (drm_init fresh).2 = (0, (drm_init fresh).2).
Proof.
  assert (Hok : (drm_init fresh).1 = 0) by by vm_compute.
  destruct (drm_init_outcome fresh) as (_ & Hiff & Hagain & _).
  split; [exact Hok|]. split; [exact (proj1 Hiff Hok)|exact (Hagain Hok)].
Defined.

(** Opening "fb0" is refused; opening "gpu0" twice. *)
Lemma open_by_name_witness :
  drm_mod_open "fb0" fresh = ((- EINVAL, None), fresh)
  ∧ (drm_mod_open "gpu0" fresh).1.1 = 0
  ∧ (∃ device,
       (drm_mod_open "gpu0" fresh).1.2 = Some device
       ∧ common_tag device = HARDWARE_DEVICE_TAG
       ∧ alloc device = drm_mod_alloc_gpu0)
  ∧ (drm_mod_open "gpu0" (drm_mod_open "gpu0" fresh).2).2
    = (drm_mod_open "gpu0" fresh).2
  ∧ (drm_mod_open "gpu0" (drm_mod_open "gpu0" fresh).2).1
    = (drm_mod_open "gpu0" fresh).1.
Proof.
  assert (Hok : (drm_mod_open "gpu0" fresh).1.1 = 0) by by vm_compute.
  assert (Hup : (drm_init fresh).1 = 0) by by vm_compute.
  destruct (open_by_name "fb0" fresh) as (Hbad & _ & _).
  destruct (open_by_name "gpu0" fresh) as (_ & Hgpu & Hagain).
  destruct (Hgpu eq_refl) as (_ & _ & _ & Hdev).
  destruct (Hdev Hup) as (device & Hsome & Htag & _ & _ & Halloc & _).
  destruct (Hagain Hok "gpu0") as [Hstate Hsame].
  split; [apply Hbad; by vm_compute|].
  split; [exact Hok|].
  split; [exists device; by repeat split|].
  split; [exact Hstate|exact (Hsame eq_refl)].
Defined.

(** Without a DRM device, opening, registering and performing all fail
    after the one failed construction. *)
Lemma bring_up_failure_witness :
  let s' := @World no_device_driver NULL ∅ RefDriver.empty
                   [CallCreate NULL] in
  @drm_mod_open android64 no_device_driver "gpu0" fresh_no_device
  = ((- EINVAL, None), s')
  ∧ @drm_mod_register_buffer no_device_driver 4128 fresh_no_device
    = (- EINVAL, s')
  ∧ @drm_mod_perform android64 no_device_driver 57005 [] fresh_no_device
    = ((- EINVAL, []), s').
Proof.
  exact (@bring_up_failure android64 no_device_driver 4128 57005 []
           fresh_no_device eq_refl eq_refl).
Defined.

(** Registering the YV12 buffer's handle leaves the registry alone. *)
Lemma registry_frame_witness :
  leaves_registry (OpRegister 4128)
  ∧ all_records (step with_yv12 (OpRegister 4128)) = all_records with_yv12.
Proof.
  assert (H : leaves_registry (OpRegister 4128)) by exact I.
  split; [exact H|exact (registry_frame with_yv12 (OpRegister 4128) H)].
Defined.

(** After open and alloc the registry holds the BO 4112, which is in
    the log. *)
Lemma registry_keys_come_from_alloc_witness :
  let s := run [OpOpen "gpu0"; OpAlloc 320 240 842094169 0 7000] fresh in
  4112 ∈ dom (all_records s)
  ∧ 4112 ≠ NULL
  ∧ 4112 ∈ created_bos (calls s).
Proof.
  intros s.
  assert (Hin : 4112 ∈ dom (all_records s)).
  { apply elem_of_dom. exists 7000. by vm_compute. }
  split; [exact Hin|].
  exact (registry_keys_come_from_alloc RefDriver.empty
           [OpOpen "gpu0"; OpAlloc 320 240 842094169 0 7000] 4112 Hin).
Defined.

(** Freeing the YV12 buffer, and freeing a handle that resolves to
    nothing. *)
Lemma destroy_buffer_outcome_witness :
  drm_mod_destroy_buffer 9999 with_yv12 = (- EINVAL, with_yv12)
  ∧ (drm_mod_destroy_buffer 4128 with_yv12).1 = 0
  ∧ all_records (drm_mod_destroy_buffer 4128 with_yv12).2
    = delete 4112 (all_records with_yv12).
Proof.
  destruct (destroy_buffer_outcome 9999 with_yv12) as (_ & Hnull & _).
  destruct (destroy_buffer_outcome 4128 with_yv12) as (_ & _ & Hlive).
  destruct (Hlive ltac:(by vm_compute)) as (_ & _ & Hdel & Hiff & _).
  split; [apply Hnull; by vm_compute|].
  split; [|exact Hdel].
  apply Hiff. apply elem_of_dom. exists 7000. by vm_compute.
Defined.

(** Allocating the YV12 buffer on the opened module and freeing it. *)
Lemma alloc_free_round_trip_witness :
  (drm_mod_alloc_gpu0 320 240 842094169 0 7000 opened).1
  = (0, Some (4128, 320))
  ∧ all_records with_yv12 !! 4112 = Some 7000
  ∧ (drm_mod_free_gpu0 4128 with_yv12).1 = 0
  ∧ all_records (drm_mod_free_gpu0 4128 with_yv12).2 = all_records opened.
Proof.
  assert (Hret : (drm_mod_alloc_gpu0 320 240 842094169 0 7000 opened).1
                 = (0, Some (4128, 320))) by by vm_compute.
  assert (Halloc : drm_mod_alloc_gpu0 320 240 842094169 0 7000 opened
                   = ((0, Some (4128, 320)), with_yv12)).
  { rewrite <- Hret. unfold with_yv12.
    by destruct (drm_mod_alloc_gpu0 320 240 842094169 0 7000 opened). }
  destruct (alloc_free_round_trip 320 240 842094169 0 7000 4128 320
              opened with_yv12 Halloc ltac:(by vm_compute)
              ltac:(by vm_compute))
    as (_ & _ & Hok & Hrec & _).
  split; [exact Hret|]. split; [by vm_compute|].
  split; [exact Hok|exact Hrec].
Defined.

(** Asking for the descriptor twice on the module as loaded. *)
Lemma perform_get_fd_stable_witness :
  let r1 := drm_mod_perform GRALLOC_MODULE_PERFORM_GET_DRM_FD [500]
                            fresh in
  let fd := gralloc_drm_get_fd (adapter r1.2) (dmod_drm r1.2) in
  r1.1.1 = 0
  ∧ fd = 3
  ∧ r1.1.2 = [(500, fd)]
  ∧ drm_mod_perform GRALLOC_MODULE_PERFORM_GET_DRM_FD [600] r1.2
    = ((0, [(600, fd)]), r1.2).
Proof.
  assert (Hok : (drm_mod_perform GRALLOC_MODULE_PERFORM_GET_DRM_FD [500]
                                 fresh).1.1 = 0) by by vm_compute.
  destruct (perform_get_fd_stable 500 600 [] [] fresh Hok)
    as (Hst & _ & Hagain).
  intros r1 fd.
  split; [exact Hok|]. split; [done|].
  split; [exact Hst|exact Hagain].
Defined.

(** The two buffer ops on the opened module. *)
Lemma perform_buffer_ops_witness :
  (drm_mod_perform GRALLOC_MODULE_PERFORM_CREATE_BUFFER
                   [320; 240; 842094169; 0; 7000] opened).1
  = (0, [(7000, 4128)])
  ∧ (drm_mod_perform GRALLOC_MODULE_PERFORM_DESTROY_BUFFER [4128]
                     with_yv12).1
    = (0, []).
Proof.
  destruct (perform_buffer_ops 320 240 842094169 0 7000 4128 opened
              android64_ops_distinct ltac:(by vm_compute)
              ltac:(lia) ltac:(lia)) as [Hc _].
  destruct (perform_buffer_ops 320 240 842094169 0 7000 4128 with_yv12
              android64_ops_distinct ltac:(by vm_compute)
              ltac:(lia) ltac:(lia)) as [_ Hd].
  split; [rewrite Hc; by vm_compute|rewrite Hd; by vm_compute].
Defined.

(** Importing through the reference driver, which has no
    [resolve_buffer], and through the driver that has one. *)
Lemma perform_import_outcome_witness :
  drm_mod_perform GRALLOC_MODULE_PERFORM_DRM_IMPORT [5; 4128; 900]
                  with_yv12
  = ((- EINVAL, []), (drm_init with_yv12).2)
  ∧ (@drm_mod_perform android64 resolving_driver
       GRALLOC_MODULE_PERFORM_DRM_IMPORT [5; 4128; 900] resolving_yv12).1
    = (0, [(900, 320); (904, 240)]).
Proof.
  assert (Hop : GRALLOC_MODULE_PERFORM_DRM_IMPORT
                ≠ GRALLOC_MODULE_PERFORM_GET_DRM_FD) by by vm_compute.
  split.
  - assert (Hok : (drm_init with_yv12).1 = 0) by by vm_compute.
    destruct (perform_import_outcome 5 4128 900 [] with_yv12 Hop Hok)
      as (_ & _ & Hfail & _).
    exact (Hfail (or_intror eq_refl)).
  - assert (Hok : (@drm_init resolving_driver resolving_yv12).1 = 0)
      by by vm_compute.
    destruct (@perform_import_outcome android64 resolving_driver
                5 4128 900 [] resolving_yv12 Hop Hok)
      as (_ & _ & _ & Hcall).
    destruct (Hcall resolve_hwc_buffer ltac:(by vm_compute) eq_refl)
      as (Hr & _).
    rewrite Hr. by vm_compute.
Defined.

(** A planar lock of the RGBA_8888 buffer fails and leaves the
    descriptor. *)
Lemma lock_ycbcr_failure_witness :
  let r := drm_mod_lock_ycbcr 4128 3 0 0 100 50 blank_ycbcr with_rgba in
  r.1.1 ≠ 0 ∧ r.1.2 = blank_ycbcr ∧ all_records r.2 = all_records with_rgba.
Proof.
  intros r.
  assert (Hfail : r.1.1 ≠ 0) by by vm_compute.
  destruct (lock_ycbcr_failure 4128 3 0 0 100 50 blank_ycbcr with_rgba)
    as (_ & Hrec & Hkeep & _).
  split; [exact Hfail|]. split; [exact (Hkeep Hfail)|exact Hrec].
Defined.

(** A buffer of 64 bytes is enough for any registry; one of 10 bytes is
    not, with the YV12 buffer in the registry. *)
Lemma dump_in_bounds_iff_witness :
  Forall (write_within 64) (drm_mod_dump_gpu0 64 with_yv12).1
  ∧ ¬ Forall (write_within 10) (drm_mod_dump_gpu0 10 with_yv12).1.
Proof.
  split.
  - apply (dump_in_bounds_iff 64 with_yv12); [by vm_compute|by vm_compute|].
    left. lia.
  - intros Hall.
    apply (dump_in_bounds_iff 10 with_yv12) in Hall;
      [|by vm_compute|by vm_compute].
    destruct Hall as [Hlen|Hempty]; [lia|].
    apply (f_equal size) in Hempty. by vm_compute in Hempty.
Defined.

(** The census of the YV12 buffer in 200 bytes. *)
Lemma dump_lists_registry_witness :
  (drm_mod_dump_gpu0 200 with_yv12).1
  = lines_from 0
      [list_ascii_of_string header_text;
       list_ascii_of_string (entry_text (adapter with_yv12) 4112 7000)].
Proof.
  destruct (dump_lists_registry 200 with_yv12 ltac:(by vm_compute)
              ltac:(by vm_compute)) as (_ & _ & Hd).
  rewrite Hd. by vm_compute.
Defined.

End ReferenceRuns.
